(** * cg-ion-upgrade.py: a shallow embedding of the staged ION firmware
      upgrade/downgrade script and of the properties of its engine.

    Python strings are Rocq [string]s (ASCII), Python ints are [Z], a Python
    dict is an association list kept in insertion order, and the CloudGenix
    SDK is a type class over an abstract world [W] whose every call is
    recorded in a log.  Python exceptions are the [Exc] results of a small
    state-and-error monad.  [print] calls have no effect on the model. *)

From Stdlib Require Import String Ascii ZArith List Bool Lia.
Import ListNotations.

Local Open Scope string_scope.
Local Open Scope Z_scope.

(* ------------------------------------------------------------------ *)
(** ** Python values used by the script *)

Inductive exn : Type :=
  | AttributeError   (* attribute access on None, e.g. [None.groups()] *)
  | TypeError        (* e.g. [re.match(path, None)], iterating over None *)
  | KeyError         (* dict lookup of a missing key *)
  | ValueError.      (* [max()] / [min()] of an empty sequence *)

Inductive res (A : Type) : Type :=
  | Ok (a : A)
  | Exc (e : exn).
Arguments Ok {A} a.
Arguments Exc {A} e.

(** Python truthiness of an optional string ([None] and [""] are false). *)
Definition truthy (s : option string) : bool :=
  match s with
  | Some (String _ _) => true
  | _ => false
  end.

(** [a in b] for Python strings: substring test. *)
Fixpoint py_in (a b : string) : bool :=
  String.prefix a b ||
  match b with
  | EmptyString => false
  | String _ b' => py_in a b'
  end.

(** A Python dict: keys in insertion order; assigning an existing key
    replaces the value in place. *)
Definition pydict (V : Type) : Type := list (string * V).

Fixpoint dict_get {V : Type} (d : pydict V) (k : string) : option V :=
  match d with
  | [] => None
  | (k', v) :: d' => if String.eqb k k' then Some v else dict_get d' k
  end.

Fixpoint dict_set {V : Type} (d : pydict V) (k : string) (v : V) : pydict V :=
  match d with
  | [] => [(k, v)]
  | (k', v') :: d' =>
      if String.eqb k k' then (k', v) :: d' else (k', v') :: dict_set d' k v
  end.

Definition dict_keys {V : Type} (d : pydict V) : list string := map fst d.

(* ------------------------------------------------------------------ *)
(** ** major_minor_micro (lines 133-135)

    [re.search('(\d+)\.(\d+)\.(\d+)', version).groups()]: the leftmost
    position where the pattern matches; at that position each [\d+] is
    greedy.  Backtracking into a shorter first or second group never
    succeeds (the next character would be a digit, not ['.']), and the last
    group is followed by nothing in the pattern, so the greedy groups are
    the ones the regex engine returns. *)

Definition is_digit (c : ascii) : bool :=
  (48 <=? nat_of_ascii c)%nat && (nat_of_ascii c <=? 57)%nat.

Fixpoint span_digits (s : string) : string * string :=
  match s with
  | EmptyString => ("", "")
  | String c s' =>
      if is_digit c then let (d, r) := span_digits s' in (String c d, r)
      else ("", s)
  end.

Definition is_dot (c : ascii) : bool := Ascii.eqb c ".".

(** The match of the pattern anchored at the start of [s]. *)
Definition match_mmm_at (s : string) : option (string * string * string) :=
  let (d1, r1) := span_digits s in
  match d1, r1 with
  | String _ _, String c1 r1' =>
      if is_dot c1 then
        let (d2, r2) := span_digits r1' in
        match d2, r2 with
        | String _ _, String c2 r2' =>
            if is_dot c2 then
              let (d3, _) := span_digits r2' in
              match d3 with
              | String _ _ => Some (d1, d2, d3)
              | EmptyString => None
              end
            else None
        | _, _ => None
        end
      else None
  | _, _ => None
  end.

(** [re.search]: the first position at which the pattern matches. *)
Fixpoint re_search_mmm (s : string) : option (string * string * string) :=
  match match_mmm_at s with
  | Some g => Some g
  | None =>
      match s with
      | EmptyString => None
      | String _ s' => re_search_mmm s'
      end
  end.

Definition digit_value (c : ascii) : Z := Z.of_nat (nat_of_ascii c) - 48.

(** [int(d)] for a string of decimal digits. *)
Fixpoint py_int_acc (acc : Z) (d : string) : Z :=
  match d with
  | EmptyString => acc
  | String c d' => py_int_acc (acc * 10 + digit_value c) d'
  end.

Definition py_int (d : string) : Z := py_int_acc 0 d.

Definition major_minor_micro (version : string) : res (Z * Z * Z) :=
  match re_search_mmm version with
  | None => Exc AttributeError          (* None.groups() *)
  | Some (major, minor, micro) => Ok (py_int major, py_int minor, py_int micro)
  end.

(** At call sites whose argument may be [None] (a failed SDK read, or a
    version that did not resolve), [re.search] raises [TypeError]. *)
Definition major_minor_micro_opt (version : option string) : res (Z * Z * Z) :=
  match version with
  | None => Exc TypeError
  | Some v => major_minor_micro v
  end.

(* ------------------------------------------------------------------ *)
(** ** get_exact_major_minor_micro (lines 189-193) *)

Fixpoint get_exact_keys (version : string) (keys : list string) : option string :=
  match keys with
  | [] => None
  | image_version :: keys' =>
      if py_in version image_version then Some image_version
      else get_exact_keys version keys'
  end.

Definition get_exact_major_minor_micro {V : Type} (version : string)
    (image_dict : pydict V) : option string :=
  get_exact_keys version (dict_keys image_dict).

(* ------------------------------------------------------------------ *)
(** ** [max(keys, key=major_minor_micro)] and [min(...)]

    CPython evaluates the key of every item in order, keeps the first item
    and replaces it only by a strictly greater (resp. smaller) key, and
    raises [ValueError] on an empty sequence.  Tuples compare
    lexicographically. *)

Definition tuple_lt (a b : Z * Z * Z) : bool :=
  let '(a1, a2, a3) := a in
  let '(b1, b2, b3) := b in
  (a1 <? b1) || ((a1 =? b1) && ((a2 <? b2) || ((a2 =? b2) && (a3 <? b3)))).

Inductive direction : Type := Upgrade | Downgrade.

(** [replaces dir new old]: the comparison [max] (resp. [min]) uses. *)
Definition replaces (dir : direction) (val best : Z * Z * Z) : bool :=
  match dir with
  | Upgrade => tuple_lt best val
  | Downgrade => tuple_lt val best
  end.

Fixpoint minmax_loop (dir : direction) (best : string) (bestval : Z * Z * Z)
    (items : list string) : res string :=
  match items with
  | [] => Ok best
  | x :: items' =>
      match major_minor_micro x with
      | Exc e => Exc e
      | Ok v =>
          if replaces dir v bestval then minmax_loop dir x v items'
          else minmax_loop dir best bestval items'
      end
  end.

(** [max(image_dict.keys(), key=major_minor_micro)] for [Upgrade],
    [min(...)] for [Downgrade]. *)
Definition minmax_by_version (dir : direction) (items : list string) : res string :=
  match items with
  | [] => Exc ValueError
  | x :: items' =>
      match major_minor_micro x with
      | Exc e => Exc e
      | Ok v => minmax_loop dir x v items'
      end
  end.

(* ------------------------------------------------------------------ *)
(** ** The path tables and [re.match] (lines 44-58, 219-222, 260-263)

    The table patterns use literal characters, backslash escapes, [.] and
    [*]; [re_compile] reads that subset of Python's regex syntax.  A
    trailing lone backslash (a [re.error] in Python) never occurs in a
    table and is read as a literal backslash. *)

Inductive ratom : Type := RLit (c : ascii) | RAny.
Inductive rpiece : Type := ROne (a : ratom) | RStar (a : ratom).

Definition is_star (c : ascii) : bool := Ascii.eqb c "*".

Fixpoint re_compile (p : string) : list rpiece :=
  match p with
  | EmptyString => []
  | String c r =>
      if Ascii.eqb c "\" then
        match r with
        | EmptyString => [ROne (RLit c)]
        | String c' r' =>
            match r' with
            | String s r'' =>
                if is_star s then RStar (RLit c') :: re_compile r''
                else ROne (RLit c') :: re_compile r'
            | EmptyString => [ROne (RLit c')]
            end
        end
      else
        let a := if Ascii.eqb c "." then RAny else RLit c in
        match r with
        | String s r' =>
            if is_star s then RStar a :: re_compile r'
            else ROne a :: re_compile r
        | EmptyString => [ROne a]
        end
  end.

(** [.] matches every character but a newline. *)
Definition atom_ok (a : ratom) (c : ascii) : bool :=
  match a with
  | RLit l => Ascii.eqb l c
  | RAny => negb (Ascii.eqb c (ascii_of_nat 10))
  end.

(** Whether the pattern matches a prefix of [s] (backtracking over the
    lengths of starred atoms, longest first). *)
Fixpoint rmatch (s : string) {struct s} : list rpiece -> bool :=
  fix go (p : list rpiece) : bool :=
    match p with
    | [] => true
    | ROne a :: p' =>
        match s with
        | EmptyString => false
        | String c s' => atom_ok a c && rmatch s' p'
        end
    | RStar a :: p' =>
        match s with
        | EmptyString => false
        | String c s' => atom_ok a c && rmatch s' p
        end || go p'
    end.

(** [re.match(path, s)] is truthy. *)
Definition re_match (path s : string) : bool := rmatch s (re_compile path).

Definition path_table : Type := list (string * string).

Definition upgrade_path_regex : path_table :=
  [ ("4\.5\..*", "4.7.1");   (* 4.5.xyz -> 4.7.1 *)
    ("4\.7\..*", "5.0.3");   (* 4.7.xyz -> 5.0.3 *)
    ("5\.0\..*", "5.2.7");   (* 5.0.xyz -> 5.2.7 *)
    ("5\.1\..*", "5.2.7");   (* 5.1.xyz -> 5.2.7 *)
    ("5\.2\..*", "5.4.3") ]. (* 5.2.xyz -> 5.4.3 *)

Definition downgrade_path_regex : path_table :=
  [ ("4\.7\..*", "4.5.3");
    ("5\.0\..*", "4.7.1");
    ("5\.1\..*", "4.7.1");
    ("5\.2\..*", "5.0.3");
    ("5\.4\..*", "5.2.7") ].

Definition path_regex (dir : direction) : path_table :=
  match dir with
  | Upgrade => upgrade_path_regex
  | Downgrade => downgrade_path_regex
  end.

(** An image of the catalog (an item of [element_images]). *)
Record image : Type := mk_image { img_version : string; img_id : string }.

(** [image_dict]: the dict built by [get_images_list]. *)
Definition catalog : Type := pydict image.

(** Lines 217-222: every entry is visited; each matching entry overwrites
    [upgrade_version] and [upgrade_image_id].  The result is the pair
    [(upgrade_version, upgrade_image_id)]. *)
Fixpoint path_scan (table : path_table) (current_version : option string)
    (image_dict : catalog) (acc : option string * option string)
    : res (option string * option string) :=
  match table with
  | [] => Ok acc
  | (path, spec) :: table' =>
      match current_version with
      | None => Exc TypeError                      (* re.match(path, None) *)
      | Some cur =>
          if re_match path cur then
            match get_exact_major_minor_micro spec image_dict with
            | None => Exc KeyError                 (* image_dict[None] *)
            | Some upgrade_version =>
                match dict_get image_dict upgrade_version with
                | None => Exc KeyError
                | Some img =>
                    path_scan table' current_version image_dict
                      (Some upgrade_version, Some (img_id img))
                end
            end
          else path_scan table' current_version image_dict acc
      end
  end.

(* ------------------------------------------------------------------ *)
(** ** A state-and-error monad for the script *)

Definition M (S A : Type) : Type := S -> res A * S.

Definition ret {S A : Type} (a : A) : M S A := fun s => (Ok a, s).

Definition raise {S A : Type} (e : exn) : M S A := fun s => (Exc e, s).

Definition lift {S A : Type} (r : res A) : M S A := fun s => (r, s).

Definition bind {S A B : Type} (m : M S A) (k : A -> M S B) : M S B :=
  fun s =>
    match m s with
    | (Ok a, s') => k a s'
    | (Exc e, s') => (Exc e, s')
    end.

Notation "'let*' x ':=' m 'in' k" := (bind m (fun x => k))
  (at level 200, x name, m at level 100, k at level 200).
Notation "'let*' ' p ':=' m 'in' k" :=
  (bind m (fun x => match x with p => k end))
  (at level 200, p pattern, m at level 100, k at level 200).

(* ------------------------------------------------------------------ *)
(** ** The CloudGenix SDK

    Element ids are [option string]: [find_ion_by_sn] returns [False]
    ([None] here) when the serial is unknown, and that value is passed on
    to the SDK by [is_upgrade_or_downgrade]. *)

Set Warnings "-register-all".

Inductive jval : Type :=
  | JNull
  | JBool (b : bool)
  | JNum (z : Z)
  | JStr (s : string)
  | JList (l : list jval)
  | JObj (fields : list (string * jval)).

(** The software-state record of an element. *)
Definition swstate : Type := pydict jval.

(** An item of [sdk.get.elements()]. *)
Record element : Type := mk_element { el_hw_id : string; el_id : string }.

Class SDK (W : Type) : Type := {
  (** [sdk.get.elements()]: status and its "items" *)
  sdk_get_elements : W -> (bool * option (list element)) * W;
  (** [sdk.get.elements(element_id)]: status and its "software_version" *)
  sdk_get_element : option string -> W -> (bool * option string) * W;
  (** [sdk.get.element_images()]: status and its "items" *)
  sdk_get_element_images : W -> (bool * option (list image)) * W;
  (** [sdk.get.software_state(element_id)]: status and content *)
  sdk_get_software_state : option string -> W -> (bool * swstate) * W;
  (** [sdk.put.software_state(element_id, data)]: status *)
  sdk_put_software_state : option string -> swstate -> W -> bool * W;
  (** [time.sleep(seconds)] *)
  time_sleep : Z -> W -> W
}.

(** Every SDK call and every sleep, as the script issues them. *)
Inductive event : Type :=
  | EvGetElements (ok : bool)
  | EvGetElement (element_id : option string) (ok : bool) (sw : option string)
  | EvGetImages (ok : bool)
  | EvGetSwState (element_id : option string) (ok : bool) (data : swstate)
  | EvPutSwState (element_id : option string) (data : swstate) (ok : bool)
  | EvSleep (seconds : Z).

Inductive pyret : Type := RFalse | RNone.

Definition opt_eqb (a b : option string) : bool :=
  match a, b with
  | None, None => true
  | Some x, Some y => String.eqb x y
  | _, _ => false
  end.

(** Python [str(n)] for an int. *)
Fixpoint dec_digits (fuel : nat) (n : Z) (acc : string) : string :=
  match fuel with
  | O => acc
  | S f =>
      let acc' := String (ascii_of_nat (48 + Z.to_nat (n mod 10))) acc in
      if n <? 10 then acc' else dec_digits f (n / 10) acc'
  end.

Definition py_str_Z (n : Z) : string :=
  if n <? 0 then String "-" (dec_digits (S (Z.to_nat (- n))) (- n) "")
  else dec_digits (S (Z.to_nat n)) n "".

(** [re.sub('\D', '', s)] *)
Fixpoint strip_non_digits (s : string) : string :=
  match s with
  | EmptyString => EmptyString
  | String c s' =>
      if is_digit c then String c (strip_non_digits s') else strip_non_digits s'
  end.

(** Python [a < b] on strings. *)
Fixpoint str_lt (a b : string) : bool :=
  match a, b with
  | _, EmptyString => false
  | EmptyString, String _ _ => true
  | String x a', String y b' =>
      if Ascii.eqb x y then str_lt a' b' else (nat_of_ascii x <? nat_of_ascii y)%nat
  end.

(** Lines 210-212: the LAST key that contains [max_version]. *)
Fixpoint scan_exact_version (max_version : string) (keys : list string)
    (acc : option string) : option string :=
  match keys with
  | [] => acc
  | version_num :: keys' =>
      scan_exact_version max_version keys'
        (if py_in max_version version_num then Some version_num else acc)
  end.

(** Lines 203-205 (and 244-246, 293-295):
    [if not max_version: max_version = max(...)] (resp. [min]) and
    [exact_max_version = get_exact_major_minor_micro(max_version, ...)]. *)
Definition target_resolution (dir : direction) (max_version : option string)
    (image_dict : catalog) : res (string * option string) :=
  let mv :=
    match max_version with
    | Some (String _ _ as v) => Ok v
    | _ => minmax_by_version dir (dict_keys image_dict)
    end in
  match mv with
  | Exc e => Exc e
  | Ok mv => Ok (mv, get_exact_major_minor_micro mv image_dict)
  end.

(** What lines 201-223 decide before a hop: stop (return False), or
    perform the hop to [upgrade_version] with [upgrade_image_id]. *)
Inductive plan : Type :=
  | PStop
  | PHop (max_version upgrade_version upgrade_image_id : string).

Section Engine.
Context {W : Type} {sdk : SDK W}.

(** The program state: the world and the log of SDK calls so far. *)
Abbreviation St := (W * list event)%type.

(** An SDK call: run it on the world and log it. *)
Definition call {A : Type} (f : W -> A * W) (ev : A -> event) : M St A :=
  fun '(w, log) => let '(a, w') := f w in (Ok a, (w', app log [ev a])).

Definition sleep (seconds : Z) : M St unit :=
  fun '(w, log) => (Ok tt, (time_sleep seconds w, app log [EvSleep seconds])).

(** Lines 138-142. *)
Definition get_element_sw_version (element_id : option string)
    : M St (option string) :=
  let* '(ok, sw) := call (sdk_get_element element_id)
                      (fun r => EvGetElement element_id (fst r) (snd r)) in
  ret (if ok then sw else None).

(** Lines 145-154. *)
Definition get_images_list : M St (option catalog) :=
  let* '(ok, items) := call sdk_get_element_images (fun r => EvGetImages (fst r)) in
  if ok then
    match items with
    | None => raise TypeError                         (* for image in None *)
    | Some images =>
        ret (Some (fold_left (fun d img => dict_set d (img_version img) img)
                     images []))
    end
  else ret None.

(** Lines 157-169. *)
Definition execute_upgrade (element_id : option string) (image_id : string)
    : M St bool :=
  let* '(ok, software_state_data) :=
    call (sdk_get_software_state element_id)
      (fun r => EvGetSwState element_id (fst r) (snd r)) in
  if negb ok then ret false
  else
    let software_state_data := dict_set software_state_data "image_id" (JStr image_id) in
    let* ok := call (sdk_put_software_state element_id software_state_data)
                 (fun ok => EvPutSwState element_id software_state_data ok) in
    if negb ok then ret false else ret true.

(** Lines 177-181: the [while] loop.  Each iteration lowers [max_wait] by
    10, so [Z.to_nat max_wait] iterations exhaust it; the loop is given that
    many turns of fuel. *)
Fixpoint wait_loop (fuel : nat) (target_version : string)
    (element_id : option string) (max_wait : Z) (current_version : option string)
    : M St (option string * Z) :=
  match fuel with
  | O => ret (current_version, max_wait)
  | S fuel' =>
      if negb (opt_eqb current_version (Some target_version)) && (0 <? max_wait)
      then
        let* _ := sleep 10 in
        let max_wait := max_wait - 10 in
        let* current_version := get_element_sw_version element_id in
        wait_loop fuel' target_version element_id max_wait current_version
      else ret (current_version, max_wait)
  end.

(** Lines 172-186. *)
Definition wait_for_upgade (target_version : string) (element_id : option string)
    (max_wait : Z) : M St bool :=
  let* current_version := get_element_sw_version element_id in
  let* '(current_version, _) :=
    wait_loop (Z.to_nat max_wait) target_version element_id max_wait current_version in
  if negb (opt_eqb current_version (Some target_version)) then ret false
  else ret true.

(** Lines 201-223 of [staged_upgrade] (242-264 of [staged_downgrade]). *)
Definition staged_plan (dir : direction) (element_id : option string)
    (max_version : option string) : M St plan :=
  let* image_dict := get_images_list in
  let* current_version := get_element_sw_version element_id in
  match image_dict with
  | None => raise AttributeError                     (* None.keys() *)
  | Some image_dict =>
      let* '(max_version, exact_max_version) :=
        lift (target_resolution dir max_version image_dict) in
      if opt_eqb current_version (Some max_version)
         || opt_eqb current_version exact_max_version
      then ret PStop                      (* "Currently at max version" *)
      else
        let exact_version :=
          scan_exact_version max_version (dict_keys image_dict) None in
        if negb (truthy exact_version) then ret PStop
        else
          let* '(upgrade_version, upgrade_image_id) :=
            lift (path_scan (path_regex dir) current_version image_dict (None, None)) in
          match upgrade_version, upgrade_image_id with
          | Some (String _ _ as uv), Some (String _ _ as uid) =>
              ret (PHop max_version uv uid)
          | _, _ => ret PStop             (* "Could not find next version" *)
          end
  end.

(** [staged_upgrade] (lines 196-234) and [staged_downgrade] (237-275)
    differ only in their [print]s, in [max]/[min] and in the path table, so
    both are [staged_rec] at a [direction].  The recursion is bounded by the
    step check; the fuel [S (Z.to_nat (max_steps - step))] given by
    [staged_change] is never exhausted before it (lemma [staged_rec_fuel]). *)
Fixpoint staged_rec (fuel : nat) (dir : direction) (element_id : option string)
    (max_version : option string) (max_wait max_steps step : Z) : M St pyret :=
  let step := step + 1 in
  if max_steps <? step then ret RFalse          (* "Max upgrade steps reached" *)
  else
    match fuel with
    | O => ret RFalse
    | S fuel' =>
        let* p := staged_plan dir element_id max_version in
        match p with
        | PStop => ret RFalse
        | PHop max_version upgrade_version upgrade_image_id =>
            let* ok := execute_upgrade element_id upgrade_image_id in
            if negb ok then ret RFalse
            else
              let* ok := wait_for_upgade upgrade_version element_id max_wait in
              if negb ok then ret RFalse
              else
                let* _ := staged_rec fuel' dir element_id (Some max_version)
                            max_wait max_steps step in
                let* _ := get_element_sw_version element_id in
                ret RNone
        end
    end.

Definition staged_change (dir : direction) (element_id : option string)
    (max_version : option string) (max_wait max_steps step : Z) : M St pyret :=
  staged_rec (S (Z.to_nat (max_steps - step))) dir element_id max_version
    max_wait max_steps step.

Definition staged_upgrade := staged_change Upgrade.
Definition staged_downgrade := staged_change Downgrade.

(** Lines 278-288; [False] is [None] here. *)
Definition find_ion_by_sn (ion_serial : string) : M St (option string) :=
  let* '(ok, items) := call sdk_get_elements (fun r => EvGetElements (fst r)) in
  if negb ok then ret None
  else
    match items with
    | None => raise TypeError
    | Some element_list =>
        match find (fun e => String.eqb (el_hw_id e) ion_serial) element_list with
        | Some e => ret (Some (el_id e))
        | None => ret None
        end
    end.

(** Lines 290-316. *)
Definition is_upgrade_or_downgrade (element_id : option string)
    (target_version : option string) : M St (option string) :=
  let* image_dict := get_images_list in
  let* current_version := get_element_sw_version element_id in
  match image_dict with
  | None => raise AttributeError
  | Some image_dict =>
      let* '(_, exact_target_version) :=
        lift (target_resolution Upgrade target_version image_dict) in
      let* '(target_major, target_minor, target_micro) :=
        lift (major_minor_micro_opt exact_target_version) in
      let* '(current_major, current_minor, current_micro) :=
        lift (major_minor_micro_opt current_version) in
      if current_major <? target_major then ret (Some "upgrade")
      else if target_major <? current_major then ret (Some "downgrade")
      else if current_minor <? target_minor then ret (Some "upgrade")
      else if target_minor <? current_minor then ret (Some "downgrade")
      else
        let current_minor := strip_non_digits (py_str_Z current_minor) in
        let target_minor := strip_non_digits (py_str_Z target_minor) in
        if str_lt current_minor target_minor then ret (Some "upgrade")
        else if str_lt target_minor current_minor then ret (Some "downgrade")
        else ret None                 (* "Version numbers are the same" *)
  end.

(** Lines 319-343, from the point where the command-line values have been
    converted ([int(...)] of lines 322-323). *)
Definition go (ion_serial cli_action : string) (max_steps max_wait : Z)
    (version_target : option string) : M St pyret :=
  let* element_id := find_ion_by_sn ion_serial in
  let* action := is_upgrade_or_downgrade element_id version_target in
  match action with
  | None => ret RFalse
  | Some action =>
      if negb (String.eqb cli_action "auto") && negb (String.eqb cli_action action)
      then ret RFalse
      else if negb (truthy element_id) then ret RFalse
      else if String.eqb action "upgrade" then
        let* _ := staged_upgrade element_id version_target max_wait max_steps 0 in
        ret RNone
      else if String.eqb action "downgrade" then
        let* _ := staged_downgrade element_id version_target max_wait max_steps 0 in
        ret RNone
      else ret RFalse
  end.

End Engine.

(* ------------------------------------------------------------------ *)
(** ** A simulated tenant with one ION, for concrete runs

    The ION reports [sim_version]; a software-state PUT moves it to the
    catalog image whose id was written, when [sim_applies] holds (otherwise
    the device never changes and every wait times out). *)

Record sim : Type := mk_sim {
  sim_version : string;
  sim_images : list image;
  sim_applies : bool;
  sim_state : swstate
}.

Definition jstr_of (v : option jval) : string :=
  match v with Some (JStr s) => s | _ => "" end.

Definition sim_put (data : swstate) (w : sim) : sim :=
  if sim_applies w then
    match find (fun i => String.eqb (img_id i) (jstr_of (dict_get data "image_id")))
            (sim_images w) with
    | Some i => mk_sim (img_version i) (sim_images w) (sim_applies w) data
    | None => mk_sim (sim_version w) (sim_images w) (sim_applies w) data
    end
  else mk_sim (sim_version w) (sim_images w) (sim_applies w) data.

#[export] Instance sim_sdk : SDK sim := {
  sdk_get_elements := fun w => ((true, Some [mk_element "ION-SN-1" "E1"]), w);
  sdk_get_element := fun _ w => ((true, Some (sim_version w)), w);
  sdk_get_element_images := fun w => ((true, Some (sim_images w)), w);
  sdk_get_software_state := fun _ w => ((true, sim_state w), w);
  sdk_put_software_state := fun _ data w => (true, sim_put data w);
  time_sleep := fun _ w => w
}.

Definition img (v : string) : image := mk_image v ("id-" ++ v).

(** The images of the examples of the script's documentation. *)
Definition tenant_images : list image :=
  [img "4.5.3-b10"; img "4.7.1-b4"; img "5.0.3-b7"; img "5.2.7-b22"; img "5.4.3-b2"].

Definition sim_at (v : string) : sim :=
  mk_sim v tenant_images true [("image_id", JStr "id-old"); ("version", JNum 1)].

Definition run {A : Type} (m : M (sim * list event) A) (w : sim) :=
  m (w, []).

(** A tenant without the 4.7.1 hop image. *)
Definition sim_no_hop : sim :=
  mk_sim "4.5.2" [img "5.2.7-b22"] true [("image_id", JStr "id-old")].

(** A tenant with the 4.7.1 hop image but without the 5.0.3 one. *)
Definition sim_gap : sim :=
  mk_sim "4.5.2" [img "4.7.1-b4"; img "5.2.7-b22"] true [("image_id", JStr "id-old")].

(** A device that accepts change requests but never changes version. *)
Definition sim_stuck (v : string) : sim :=
  mk_sim v tenant_images false [("image_id", JStr "id-old")].

(** The state of a run of [m] from [w]. *)
Definition run_state {A : Type} (m : M (sim * list event) A) (w : sim) : sim * list event :=
  snd (run m w).

Definition count (p : event -> bool) (log : list event) : nat := length (filter p log).

Definition is_apply (e : event) : bool :=
  match e with EvGetSwState _ _ _ => true | _ => false end.

Definition is_put (e : event) : bool :=
  match e with EvPutSwState _ _ _ => true | _ => false end.

(** Number of [execute_upgrade] calls (software-state reads) in a log. *)
Definition count_apply (log : list event) : nat := count is_apply log.

(** Number of change requests (software-state writes) in a log. *)
Definition count_put (log : list event) : nat := count is_put log.

(* ------------------------------------------------------------------ *)
(** ** Occurrences of [major.minor.micro] in a string *)

Fixpoint all_digits (d : string) : bool :=
  match d with
  | EmptyString => true
  | String c d' => is_digit c && all_digits d'
  end.

Definition starts_with_digit (s : string) : bool :=
  match s with
  | String c _ => is_digit c
  | EmptyString => false
  end.

(** [\d+] *)
Definition digit_run (d : string) : Prop := d <> EmptyString /\ all_digits d = true.

(** [s = pre ++ d1 ++ "." ++ d2 ++ "." ++ d3 ++ post] with three digit runs. *)
Definition occurrence (s pre d1 d2 d3 post : string) : Prop :=
  s = pre ++ d1 ++ "." ++ d2 ++ "." ++ d3 ++ post
  /\ digit_run d1 /\ digit_run d2 /\ digit_run d3.

Definition has_mmm_pattern (s : string) : Prop :=
  exists pre d1 d2 d3 post, occurrence s pre d1 d2 d3 post.

(** The value [get_element_sw_version] returns for an SDK response. *)
Definition read_value (r : bool * option string) : option string :=
  if fst r then snd r else None.

(** The log of the polling loop of [wait_for_upgade] for the SDK responses
    [rs]: a 10-second sleep before each re-read. *)
Definition poll_log (element_id : option string) (rs : list (bool * option string))
    : list event :=
  flat_map (fun r => [EvSleep 10; EvGetElement element_id (fst r) (snd r)]) rs.

(** The specifier of the LAST entry of [table] whose pattern matches [cur]. *)
Fixpoint last_match (table : path_table) (cur : string) : option string :=
  match table with
  | [] => None
  | (path, spec) :: table' =>
      match last_match table' cur with
      | Some sp => Some sp
      | None => if re_match path cur then Some spec else None
      end
  end.

(** The hop for a specifier: its exact version and the image id. *)
Definition hop_of (spec : string) (image_dict : catalog) : option string * option string :=
  match get_exact_major_minor_micro spec image_dict with
  | Some uv => (Some uv, option_map img_id (dict_get image_dict uv))
  | None => (None, None)
  end.

Definition last_match_hop (table : path_table) (cur : string) (image_dict : catalog)
    : option string * option string :=
  match last_match table cur with
  | Some spec => hop_of spec image_dict
  | None => (None, None)
  end.

(** The compiled form of the table patterns [a\.b\..*]. *)
Definition pat4 (a b : ascii) : list rpiece :=
  [ROne (RLit a); ROne (RLit "."); ROne (RLit b); ROne (RLit "."); RStar RAny].

(** The catalog [get_images_list] builds for [tenant_images]. *)
Definition tenant_catalog : catalog :=
  map (fun i => (img_version i, i)) tenant_images.

(** A path table in which two entries match the 4.5.x versions. *)
Definition overlapping_table : path_table :=
  [ ("4\.5\..*", "4.7.1");
    ("4\..*", "5.0.3") ].

(** The dict [get_images_list] builds from the items of the images call
    (lines 151-153): [image_dict[image['version']] = image] for each item. *)
Definition image_dict_of (images : list image) : catalog :=
  fold_left (fun d img => dict_set d (img_version img) img) images [].

(** The last item of [images] with version [v]. *)
Definition last_image_with (v : string) (images : list image) : option image :=
  find (fun i => String.eqb (img_version i) v) (rev images).

(* ------------------------------------------------------------------ *)
(** ** authenticate (lines 94-130)

    The file imports [time], [re], [sys] and [argparse] but not [os], so the
    two [os.environ] tests raise [NameError].  The API object is a type
    class over an abstract state; [open(f).read()] is a lookup in a file
    system that fails ([OSError]) on a missing file; [sys.exit()] raises
    [SystemExit].  The interactive loop [while sdk.tenant_id is None] may
    run forever, so it is given fuel and reports [AuthLoop] when the fuel
    runs out. *)

Class AuthAPI (A : Type) : Type := {
  api_tenant_id : A -> option string;
  api_use_token : string -> A -> A;                 (* sdk.interactive.use_token *)
  api_login : A -> A                                (* sdk.interactive.login(None, None) *)
}.

Record auth_args : Type := mk_auth_args {
  arg_token : option string;            (* CLIARGS['token'] *)
  arg_authtokenfile : option string     (* CLIARGS['authtokenfile'] *)
}.

Inductive auth_exn : Type := NameError | SystemExit | OSError.

Inductive auth_result (A : Type) : Type :=
  | AuthOk (sdk : A)
  | AuthRaise (e : auth_exn)
  | AuthLoop (sdk : A).
Arguments AuthOk {A} sdk.
Arguments AuthRaise {A} e.
Arguments AuthLoop {A} sdk.

(** [str.isspace] on ASCII: tab to carriage return, the four separators
    0x1c-0x1f and the space. *)
Definition py_is_space (c : ascii) : bool :=
  let n := nat_of_ascii c in
  ((9 <=? n) && (n <=? 13))%nat || ((28 <=? n) && (n <=? 32))%nat.

Fixpoint py_lstrip (s : string) : string :=
  match s with
  | EmptyString => EmptyString
  | String c s' => if py_is_space c then py_lstrip s' else s
  end.

Fixpoint rev_string (s : string) : string :=
  match s with
  | EmptyString => EmptyString
  | String c s' => rev_string s' ++ String c EmptyString
  end.

(** [str.strip()]. *)
Definition py_strip (s : string) : string :=
  rev_string (py_lstrip (rev_string (py_lstrip s))).

Section Auth.
Context {A : Type} {api : AuthAPI A}.

(** Lines 123-128. *)
Fixpoint login_loop (fuel : nat) (sdk : A) : auth_result A :=
  match fuel with
  | O => AuthLoop sdk
  | S fuel' =>
      match api_tenant_id sdk with
      | None => login_loop fuel' (api_login sdk)
      | Some _ => AuthOk sdk
      end
  end.

Definition authenticate (fuel : nat) (files : string -> option string)
    (CLIARGS : auth_args) (sdk : A) : auth_result A :=
  let token :=
    if truthy (arg_token CLIARGS) then inl (arg_token CLIARGS)
    else if truthy (arg_authtokenfile CLIARGS) then
      match arg_authtokenfile CLIARGS with
      | Some f =>
          match files f with
          | Some text => inl (Some (py_strip text))
          | None => inr OSError
          end
      | None => inr OSError
      end
    else inr NameError                     (* "X_AUTH_TOKEN" in os.environ *)
  in
  match token with
  | inr e => AuthRaise e
  | inl CLOUDGENIX_AUTH_TOKEN =>
      match CLOUDGENIX_AUTH_TOKEN with
      | Some (String _ _ as t) =>
          let sdk := api_use_token t sdk in
          match api_tenant_id sdk with
          | None => AuthRaise SystemExit
          | Some _ => AuthOk sdk
          end
      | _ => login_loop fuel sdk
      end
  end.

End Auth.

(** A toy API for concrete runs of [authenticate]: the token TOKEN gives
    tenant T1, an interactive login always succeeds. *)
Record demo_api : Type := mk_demo_api { demo_tenant : option string }.

#[export] Instance demo_auth : AuthAPI demo_api := {
  api_tenant_id := demo_tenant;
  api_use_token := fun t _ => mk_demo_api (if String.eqb t "TOKEN" then Some "T1" else None);
  api_login := fun _ => mk_demo_api (Some "T1")
}.

(* ------------------------------------------------------------------ *)
(** * Proofs *)

(** ** Version parsing *)

Lemma span_digits_spec (s d r : string) :
  span_digits s = (d, r) ->
  s = d ++ r /\ all_digits d = true /\ starts_with_digit r = false.
Proof.
  revert d r; induction s as [|c s IH]; intros d r H; simpl in H.
  - inversion H; subst; auto.
  - destruct (is_digit c) eqn:Hc.
    + destruct (span_digits s) as [d' r'] eqn:Hs.
      inversion H; subst; clear H.
      destruct (IH _ _ eq_refl) as (-> & Hd & Hr).
      simpl; rewrite Hc; auto.
    + inversion H; subst; simpl; auto.
Qed.

Lemma span_digits_app (d r : string) :
  all_digits d = true -> starts_with_digit r = false ->
  span_digits (d ++ r) = (d, r).
Proof.
  induction d as [|c d IH]; intros Hd Hr; simpl in *.
  - destruct r as [|c r]; simpl in *; [reflexivity|now rewrite Hr].
  - apply andb_true_iff in Hd as [Hc Hd].
    rewrite Hc, IH by assumption; reflexivity.
Qed.

Lemma span_digits_nonempty (c : ascii) (s : string) :
  is_digit c = true -> exists d r, span_digits (String c s) = (String c d, r).
Proof.
  intros Hc; simpl; rewrite Hc.
  destruct (span_digits s) as [d r]; eauto.
Qed.

Lemma dot_not_digit : starts_with_digit ("." ++ EmptyString) = false.
Proof. reflexivity. Qed.

Lemma match_mmm_at_some (s d1 d2 d3 : string) :
  match_mmm_at s = Some (d1, d2, d3) ->
  exists post, occurrence s "" d1 d2 d3 post /\ starts_with_digit post = false.
Proof.
  unfold match_mmm_at.
  destruct (span_digits s) as [e1 r1] eqn:H1.
  apply span_digits_spec in H1 as (-> & Hd1 & _).
  destruct e1 as [|a1 e1]; [discriminate|].
  destruct r1 as [|c1 r1]; [discriminate|].
  destruct (is_dot c1) eqn:Hc1; [|discriminate].
  destruct (span_digits r1) as [e2 r2] eqn:H2.
  apply span_digits_spec in H2 as (-> & Hd2 & _).
  destruct e2 as [|a2 e2]; [discriminate|].
  destruct r2 as [|c2 r2]; [discriminate|].
  destruct (is_dot c2) eqn:Hc2; [|discriminate].
  destruct (span_digits r2) as [e3 r3] eqn:H3.
  apply span_digits_spec in H3 as (-> & Hd3 & Hr3).
  destruct e3 as [|a3 e3]; [discriminate|].
  intros H; inversion H; subst; clear H.
  unfold is_dot in Hc1, Hc2.
  apply Ascii.eqb_eq in Hc1, Hc2; subst.
  exists r3; repeat split; auto; discriminate.
Qed.

Lemma match_mmm_at_none (s d1 d2 d3 post : string) :
  match_mmm_at s = None -> ~ occurrence s "" d1 d2 d3 post.
Proof.
  intros Hm (Hs & [Hn1 Hd1] & [Hn2 Hd2] & [Hn3 Hd3]); simpl in Hs; subst s.
  unfold match_mmm_at in Hm.
  rewrite span_digits_app in Hm by (exact Hd1 || reflexivity).
  destruct d1 as [|a1 d1]; [congruence|]; simpl in Hm.
  rewrite span_digits_app in Hm by (exact Hd2 || reflexivity).
  destruct d2 as [|a2 d2]; [congruence|]; simpl in Hm.
  destruct d3 as [|a3 d3]; [congruence|].
  simpl in Hd3; apply andb_true_iff in Hd3 as [Ha3 _].
  destruct (span_digits_nonempty a3 (d3 ++ post) Ha3) as (e & r & He).
  simpl (String a3 d3 ++ post) in Hm.
  rewrite He in Hm; discriminate.
Qed.

Lemma re_search_mmm_cons (c : ascii) (s : string) :
  re_search_mmm (String c s) =
  match match_mmm_at (String c s) with
  | Some g => Some g
  | None => re_search_mmm s
  end.
Proof. reflexivity. Qed.

Lemma re_search_mmm_some (s d1 d2 d3 : string) :
  re_search_mmm s = Some (d1, d2, d3) ->
  exists pre post,
    occurrence s pre d1 d2 d3 post /\ starts_with_digit post = false /\
    (forall pre' d1' d2' d3' post',
        occurrence s pre' d1' d2' d3' post' ->
        (String.length pre <= String.length pre')%nat).
Proof.
  induction s as [|c s IH]; intros H.
  - discriminate.
  - rewrite re_search_mmm_cons in H.
    destruct (match_mmm_at (String c s)) as [g|] eqn:Hm.
    + inversion H; subst g; clear H.
      destruct (match_mmm_at_some _ _ _ _ Hm) as (post & Hocc & Hpost).
      exists EmptyString, post; split; [exact Hocc|split; [exact Hpost|]].
      intros; simpl; lia.
    + destruct (IH H) as (pre & post & (Hs & Hr) & Hpost & Hmin).
      exists (String c pre), post; split; [split|split; [exact Hpost|]].
      * rewrite Hs; reflexivity.
      * exact Hr.
      * intros pre' d1' d2' d3' post' Hocc.
        destruct pre' as [|c' pre'].
        -- exfalso; exact (match_mmm_at_none _ _ _ _ _ Hm Hocc).
        -- destruct Hocc as (Hs' & Hr').
           simpl in Hs'; injection Hs' as _ Hs'.
           specialize (Hmin pre' d1' d2' d3' post' (conj Hs' Hr')).
           simpl; lia.
Qed.

Lemma re_search_mmm_none (s : string) :
  re_search_mmm s = None -> ~ has_mmm_pattern s.
Proof.
  induction s as [|c s IH]; intros H (pre & d1 & d2 & d3 & post & Hocc).
  - destruct Hocc as (Hs & [Hn1 _] & _).
    destruct pre; [|discriminate]; destruct d1; [congruence|discriminate].
  - rewrite re_search_mmm_cons in H.
    destruct (match_mmm_at (String c s)) as [g|] eqn:Hm; [discriminate|].
    destruct pre as [|c' pre].
    + exact (match_mmm_at_none _ _ _ _ _ Hm Hocc).
    + destruct Hocc as (Hs & Hr); simpl in Hs; injection Hs as _ Hs.
      apply (IH H); exists pre, d1, d2, d3, post; split; assumption.
Qed.

Lemma digit_value_nonneg (c : ascii) : is_digit c = true -> 0 <= digit_value c.
Proof.
  unfold is_digit, digit_value; intros H.
  apply andb_true_iff in H as [H _]; apply Nat.leb_le in H; lia.
Qed.

Lemma py_int_acc_nonneg (acc : Z) (d : string) :
  0 <= acc -> all_digits d = true -> 0 <= py_int_acc acc d.
Proof.
  revert acc; induction d as [|c d IH]; intros acc Hacc Hd; simpl in *; auto.
  apply andb_true_iff in Hd as [Hc Hd].
  apply IH; auto; pose proof (digit_value_nonneg c Hc); lia.
Qed.

(** C9: [major_minor_micro] fails (with the [AttributeError] of
    [None.groups()], the script's malformed-version error) exactly when the
    string has no [major.minor.micro] numeric pattern; otherwise it returns
    the three non-negative components of the first (leftmost) occurrence,
    the micro group running to the end of its digits, whatever surrounds it. *)
Theorem C9_major_minor_micro_first_occurrence (version : string) :
  (major_minor_micro version = Exc AttributeError <-> ~ has_mmm_pattern version) /\
  ((exists v, major_minor_micro version = Ok v) <-> has_mmm_pattern version) /\
  (forall v, major_minor_micro version = Ok v ->
     exists pre d1 d2 d3 post,
       occurrence version pre d1 d2 d3 post /\
       (forall pre' d1' d2' d3' post',
           occurrence version pre' d1' d2' d3' post' ->
           (String.length pre <= String.length pre')%nat) /\
       starts_with_digit post = false /\
       v = (py_int d1, py_int d2, py_int d3) /\
       0 <= py_int d1 /\ 0 <= py_int d2 /\ 0 <= py_int d3).
Proof.
  unfold major_minor_micro.
  destruct (re_search_mmm version) as [[[d1 d2] d3]|] eqn:Hs.
  - destruct (re_search_mmm_some _ _ _ _ Hs) as (pre & post & Hocc & Hpost & Hmin).
    assert (Hpat : has_mmm_pattern version) by (exists pre, d1, d2, d3, post; exact Hocc).
    split; [split; [discriminate|intros Hn; contradiction]|].
    split; [split; [intros _; exact Hpat|intros _; eauto]|].
    intros v Hv; injection Hv as <-.
    destruct Hocc as (Hv & [Hn1 Hd1] & [Hn2 Hd2] & [Hn3 Hd3]).
    exists pre, d1, d2, d3, post.
    split; [repeat split; assumption|].
    split; [exact Hmin|].
    split; [exact Hpost|].
    split; [reflexivity|].
    unfold py_int; repeat split; apply py_int_acc_nonneg; auto; lia.
  - pose proof (re_search_mmm_none _ Hs) as Hn.
    split; [split; [intros _; exact Hn|reflexivity]|].
    split; [split; [intros [v Hv]; discriminate|intros Hp; contradiction]|].
    intros v Hv; discriminate.
Qed.

(** ** Logs of the engine *)

Section Logs.
Context {W : Type} {sdk : SDK W}.
Abbreviation St := (W * list event)%type.

(** The kind of event counted: software-state reads or writes, not both. *)
Variable p : event -> bool.
Hypothesis p_sw : forall e, p e = true -> is_apply e || is_put e = true.
Hypothesis p_one_kind : forall eid ok d eid' d' ok',
  p (EvGetSwState eid ok d) = true -> p (EvPutSwState eid' d' ok') = false.

(** [m] only appends to the log, and appends at most [n] counted events. *)
Definition within {A : Type} (m : M St A) (n : nat) : Prop :=
  forall w log r w' log',
    m (w, log) = (r, (w', log')) ->
    exists tr, log' = app log tr /\ (count p tr <= n)%nat.

Lemma count_app (l1 l2 : list event) :
  count p (app l1 l2) = (count p l1 + count p l2)%nat.
Proof. unfold count; rewrite filter_app, length_app; reflexivity. Qed.

Lemma count_other (e : event) :
  is_apply e || is_put e = false -> count p [e] = 0%nat.
Proof.
  intros He; unfold count; simpl.
  destruct (p e) eqn:Hp; [|reflexivity].
  apply p_sw in Hp; congruence.
Qed.

Lemma within_ret {A : Type} (a : A) (n : nat) : within (ret a) n.
Proof.
  intros w log r w' log' H; inversion H; subst.
  exists []; rewrite app_nil_r; split; [reflexivity|unfold count; simpl; lia].
Qed.

Lemma within_raise {A : Type} (e : exn) (n : nat) : within (A := A) (raise e) n.
Proof.
  intros w log r w' log' H; inversion H; subst.
  exists []; rewrite app_nil_r; split; [reflexivity|unfold count; simpl; lia].
Qed.

Lemma within_lift {A : Type} (x : res A) (n : nat) : within (lift x) n.
Proof.
  intros w log r w' log' H; inversion H; subst.
  exists []; rewrite app_nil_r; split; [reflexivity|unfold count; simpl; lia].
Qed.

Lemma within_mono {A : Type} (m : M St A) (n n' : nat) :
  within m n -> (n <= n')%nat -> within m n'.
Proof.
  intros Hm Hle w log r w' log' H.
  destruct (Hm _ _ _ _ _ H) as (tr & -> & H1); exists tr; split; [reflexivity|lia].
Qed.

Lemma within_bind {A B : Type} (m : M St A) (k : A -> M St B) (n1 n2 : nat) :
  within m n1 -> (forall a, within (k a) n2) -> within (bind m k) (n1 + n2).
Proof.
  intros Hm Hk w log r w' log' H; unfold bind in H.
  destruct (m (w, log)) as [[a|e] [w1 log1]] eqn:E.
  - destruct (Hm _ _ _ _ _ E) as (tr1 & -> & H1).
    destruct (Hk a _ _ _ _ _ H) as (tr2 & -> & H2).
    exists (app tr1 tr2); rewrite app_assoc, count_app.
    split; [reflexivity|lia].
  - inversion H; subst.
    destruct (Hm _ _ _ _ _ E) as (tr1 & -> & H1).
    exists tr1; split; [reflexivity|lia].
Qed.

Lemma within_bind0 {A B : Type} (m : M St A) (k : A -> M St B) (n : nat) :
  within m 0 -> (forall a, within (k a) n) -> within (bind m k) n.
Proof. intros Hm Hk; exact (within_bind m k 0 n Hm Hk). Qed.

Lemma within_bind_r {A B : Type} (m : M St A) (k : A -> M St B) (n : nat) :
  within m n -> (forall a, within (k a) 0) -> within (bind m k) n.
Proof.
  intros Hm Hk; rewrite <- (Nat.add_0_r n); exact (within_bind m k n 0 Hm Hk).
Qed.

Lemma within_call {A : Type} (f : W -> A * W) (ev : A -> event) (n : nat) :
  (forall a, count p [ev a] <= n)%nat -> within (call f ev) n.
Proof.
  intros Hev w log r w' log' H; unfold call in H.
  destruct (f w) as [a w1]; inversion H; subst.
  exists [ev a]; split; [reflexivity|apply Hev].
Qed.

Lemma within_sleep (secs : Z) : within (sleep secs) 0.
Proof.
  intros w log r w' log' H; inversion H; subst.
  exists [EvSleep secs]; split; [reflexivity|rewrite count_other; auto].
Qed.

Create HintDb within.
#[local] Hint Resolve within_ret within_raise within_lift within_sleep : within.

Ltac within_tac :=
  repeat match goal with
  | |- within (bind _ _) _ => apply within_bind0; [|intros ?]
  | |- within (ret _) _ => apply within_ret
  | |- within (raise _) _ => apply within_raise
  | |- within (lift _) _ => apply within_lift
  | |- within (match ?x with _ => _ end) _ => destruct x
  | |- within (call _ _) 0 =>
      apply within_call; intros ?; rewrite count_other; [lia|reflexivity]
  | |- within _ _ => solve [eauto with within]
  end.

Lemma within_get_element_sw_version (eid : option string) :
  within (get_element_sw_version eid) 0.
Proof. unfold get_element_sw_version; within_tac. Qed.
#[local] Hint Resolve within_get_element_sw_version : within.

Lemma within_get_images_list : within get_images_list 0.
Proof. unfold get_images_list; within_tac. Qed.
#[local] Hint Resolve within_get_images_list : within.

Lemma within_wait_loop (fuel : nat) (target : string) (eid : option string)
    (mw : Z) (cur : option string) :
  within (wait_loop fuel target eid mw cur) 0.
Proof.
  revert mw cur; induction fuel as [|fuel IH]; intros mw cur; simpl.
  - apply within_ret.
  - within_tac.
Qed.
#[local] Hint Resolve within_wait_loop : within.

Lemma within_wait_for_upgade (target : string) (eid : option string) (mw : Z) :
  within (wait_for_upgade target eid mw) 0.
Proof. unfold wait_for_upgade; within_tac. Qed.
#[local] Hint Resolve within_wait_for_upgade : within.

Lemma within_execute_upgrade (eid : option string) (iid : string) :
  within (execute_upgrade eid iid) 1.
Proof.
  intros w log r w' log' H; unfold execute_upgrade, bind, call in H.
  destruct (sdk_get_software_state eid w) as [[ok data] w1].
  destruct (negb ok).
  - inversion H; subst.
    eexists; split; [reflexivity|unfold count; simpl; destruct (p _); simpl; lia].
  - destruct (sdk_put_software_state _ _ w1) as [ok' w2].
    destruct (negb ok'); inversion H; subst;
      (eexists; split; [rewrite <- app_assoc; reflexivity|]);
      unfold count; simpl;
      (destruct (p (EvGetSwState _ _ _)) eqn:Hg;
       [rewrite (p_one_kind _ _ _ _ _ _ Hg)|]; simpl;
       [lia|destruct (p (EvPutSwState _ _ _)); simpl; lia]).
Qed.

Lemma within_staged_plan (dir : direction) (eid mv : option string) :
  within (staged_plan dir eid mv) 0.
Proof. unfold staged_plan; within_tac. Qed.
#[local] Hint Resolve within_staged_plan : within.

Lemma within_find_ion_by_sn (sn : string) : within (find_ion_by_sn sn) 0.
Proof. unfold find_ion_by_sn; within_tac. Qed.
#[local] Hint Resolve within_find_ion_by_sn : within.

Lemma within_is_upgrade_or_downgrade (eid tv : option string) :
  within (is_upgrade_or_downgrade eid tv) 0.
Proof. unfold is_upgrade_or_downgrade; within_tac. Qed.
#[local] Hint Resolve within_is_upgrade_or_downgrade : within.

(** The step budget bounds the counted events of a run. *)
Lemma within_staged_rec (fuel : nat) (dir : direction) (eid mv : option string)
    (mw ms step : Z) :
  within (staged_rec fuel dir eid mv mw ms step) (Z.to_nat (ms - step)).
Proof.
  revert mv step; induction fuel as [|fuel IH]; intros mv step; cbn [staged_rec].
  - destruct (ms <? step + 1); apply within_ret.
  - destruct (ms <? step + 1) eqn:Hlim; [apply within_ret|].
    apply Z.ltb_ge in Hlim.
    apply within_bind0; [apply within_staged_plan|].
    intros [|mv' uv uid]; [apply within_ret|].
    eapply within_mono.
    + apply (within_bind _ _ 1 (Z.to_nat (ms - (step + 1)))).
      * apply within_execute_upgrade.
      * intros ok; destruct (negb ok); [apply within_ret|].
        apply within_bind0; [apply within_wait_for_upgade|].
        intros ok'; destruct (negb ok'); [apply within_ret|].
        apply within_bind_r; [apply IH|].
        intros _; within_tac.
    + lia.
Qed.

Lemma within_staged_change (dir : direction) (eid mv : option string) (mw ms step : Z) :
  within (staged_change dir eid mv mw ms step) (Z.to_nat (ms - step)).
Proof. apply within_staged_rec. Qed.

End Logs.

(** ** Python dicts *)

Lemma dict_get_set_eq {V : Type} (d : pydict V) (k : string) (v : V) :
  dict_get (dict_set d k v) k = Some v.
Proof.
  induction d as [|[k' v'] d IH]; simpl.
  - rewrite String.eqb_refl; reflexivity.
  - destruct (String.eqb k k') eqn:E; simpl; rewrite ?E; auto.
Qed.

Lemma dict_get_set_neq {V : Type} (d : pydict V) (k k' : string) (v : V) :
  k' <> k -> dict_get (dict_set d k v) k' = dict_get d k'.
Proof.
  intros Hne; induction d as [|[k0 v0] d IH]; simpl.
  - destruct (String.eqb_spec k' k); congruence.
  - destruct (String.eqb_spec k k0) as [->|Hk]; simpl.
    + destruct (String.eqb_spec k' k0); congruence.
    + destruct (String.eqb k' k0); auto.
Qed.

Lemma dict_keys_set {V : Type} (d : pydict V) (k : string) (v : V) :
  dict_keys (dict_set d k v) =
  if existsb (String.eqb k) (dict_keys d) then dict_keys d
  else app (dict_keys d) [k].
Proof.
  induction d as [|[k0 v0] d IH]; simpl; [reflexivity|].
  destruct (String.eqb k k0); simpl; [reflexivity|].
  rewrite IH; destruct (existsb (String.eqb k) (dict_keys d)); reflexivity.
Qed.

(** ** The change-and-wait protocol and the engine *)

Section Protocol.
Context {W : Type} {sdk : SDK W}.

Lemma bind_ok {S A B : Type} (m : M S A) (k : A -> M S B) (s s' : S) (a : A) :
  m s = (Ok a, s') -> bind m k s = k a s'.
Proof. intros H; unfold bind; rewrite H; reflexivity. Qed.

Lemma bind_exc {S A B : Type} (m : M S A) (k : A -> M S B) (s s' : S) (e : exn) :
  m s = (Exc e, s') -> bind m k s = (Exc e, s').
Proof. intros H; unfold bind; rewrite H; reflexivity. Qed.

Lemma sleep_run (n : Z) (w : W) (log : list event) :
  sleep n (w, log) = (Ok tt, (time_sleep n w, app log [EvSleep n])).
Proof. reflexivity. Qed.

Lemma get_element_sw_version_run (eid : option string) (w : W) (log : list event) :
  get_element_sw_version eid (w, log) =
  (Ok (read_value (fst (sdk_get_element eid w))),
   (snd (sdk_get_element eid w),
    app log [EvGetElement eid (fst (fst (sdk_get_element eid w)))
                              (snd (fst (sdk_get_element eid w)))])).
Proof.
  unfold get_element_sw_version, bind, call.
  destruct (sdk_get_element eid w) as [[ok sw] w1]; reflexivity.
Qed.

Lemma wait_loop_spec (fuel : nat) (target : string) (eid : option string)
    (mw : Z) (cur : option string) (w : W) (log : list event) :
  (Z.to_nat mw <= fuel)%nat ->
  exists rs cur' w',
    wait_loop fuel target eid mw cur (w, log) =
      (Ok (cur', mw - 10 * Z.of_nat (length rs)), (w', app log (poll_log eid rs))) /\
    (exists before, cur :: map read_value rs = app before [cur'] /\
                    Forall (fun v => v <> Some target) before) /\
    (cur' <> Some target -> mw - 10 * Z.of_nat (length rs) <= 0) /\
    (rs = [] \/ 10 * Z.of_nat (length rs) < mw + 10).
Proof.
  revert mw cur w log; induction fuel as [|fuel IH]; intros mw cur w log Hf.
  - exists [], cur, w; cbn [wait_loop length poll_log flat_map map].
    rewrite app_nil_r, Z.mul_0_r, Z.sub_0_r.
    split; [reflexivity|].
    split; [exists []; auto|].
    split; [intros _; lia|auto].
  - cbn [wait_loop].
    destruct (negb (opt_eqb cur (Some target)) && (0 <? mw)) eqn:Hc.
    + apply andb_true_iff in Hc as [Hne Hpos].
      apply Z.ltb_lt in Hpos.
      rewrite (bind_ok _ _ _ _ _ (sleep_run 10 w log)).
      rewrite (bind_ok _ _ _ _ _ (get_element_sw_version_run _ _ _)).
      set (r := fst (sdk_get_element eid (time_sleep 10 w))).
      set (w1 := snd (sdk_get_element eid (time_sleep 10 w))).
      edestruct (IH (mw - 10) (read_value r) w1
                   (app (app log [EvSleep 10]) [EvGetElement eid (fst r) (snd r)]))
        as (rs & cur' & w' & Hrun & (before & Hb & Hall) & Htimeout & Hpolls);
        [lia|].
      exists (r :: rs), cur', w'.
      rewrite Hrun.
      change (length (r :: rs)) with (S (length rs)).
      split; [|split; [|split]].
      * f_equal; [do 2 f_equal; lia|].
        f_equal; rewrite <- !app_assoc; reflexivity.
      * exists (cur :: before); cbn [map app]; rewrite Hb; split; [reflexivity|].
        constructor; [|exact Hall].
        intros ->; cbn [opt_eqb] in Hne; rewrite String.eqb_refl in Hne; discriminate.
      * intros H; specialize (Htimeout H); lia.
      * right; destruct Hpolls as [->|Hp]; cbn [length] in *; lia.
    + exists [], cur, w; cbn [length poll_log flat_map map].
      rewrite app_nil_r, Z.mul_0_r, Z.sub_0_r.
      split; [reflexivity|].
      split; [exists []; auto|].
      split; [|auto].
      intros Hne.
      destruct (opt_eqb cur (Some target)) eqn:Heq.
      * destruct cur as [c|]; cbn [opt_eqb] in Heq; [|discriminate].
        apply String.eqb_eq in Heq; subst; contradiction.
      * cbn [negb andb] in Hc; apply Z.ltb_ge in Hc; lia.
Qed.

Lemma opt_eqb_some (x : option string) (t : string) :
  opt_eqb x (Some t) = true <-> x = Some t.
Proof.
  destruct x as [c|]; cbn [opt_eqb]; [|split; discriminate].
  rewrite String.eqb_eq; split; congruence.
Qed.

Lemma wait_for_upgade_spec (target : string) (eid : option string) (mw : Z)
    (w : W) (log : list event) :
  exists r0 rs b w',
    wait_for_upgade target eid mw (w, log) =
      (Ok b, (w', app log (EvGetElement eid (fst r0) (snd r0) :: poll_log eid rs))) /\
    (exists before last, map read_value (r0 :: rs) = app before [last] /\
       Forall (fun v => v <> Some target) before /\ (b = true <-> last = Some target)) /\
    (b = false -> mw <= 10 * Z.of_nat (length rs)) /\
    (rs = [] \/ 10 * Z.of_nat (length rs) < mw + 10).
Proof.
  unfold wait_for_upgade.
  rewrite (bind_ok _ _ _ _ _ (get_element_sw_version_run _ _ _)).
  set (r0 := fst (sdk_get_element eid w)).
  destruct (wait_loop_spec (Z.to_nat mw) target eid mw (read_value r0)
              (snd (sdk_get_element eid w))
              (app log [EvGetElement eid (fst r0) (snd r0)]) (le_n _))
    as (rs & cur' & w' & Hrun & (before & Hb & Hall) & Htimeout & Hpolls).
  rewrite (bind_ok _ _ _ _ _ Hrun).
  exists r0, rs, (opt_eqb cur' (Some target)), w'.
  split; [|split; [|split]].
  - rewrite <- app_assoc.
    destruct (opt_eqb cur' (Some target)); reflexivity.
  - exists before, cur'; split; [exact Hb|split; [exact Hall|apply opt_eqb_some]].
  - intros Hf.
    assert (Hne : cur' <> Some target)
      by (intros Heq; apply opt_eqb_some in Heq; congruence).
    specialize (Htimeout Hne); lia.
  - exact Hpolls.
Qed.

(** One step of the engine within the step budget. *)
Lemma staged_change_step (dir : direction) (eid mv : option string)
    (mw ms step : Z) :
  step + 1 <= ms ->
  staged_change dir eid mv mw ms step =
  bind (staged_plan dir eid mv) (fun p =>
    match p with
    | PStop => ret RFalse
    | PHop mv' uv uid =>
        bind (execute_upgrade eid uid) (fun ok =>
          if negb ok then ret RFalse
          else bind (wait_for_upgade uv eid mw) (fun ok =>
            if negb ok then ret RFalse
            else bind (staged_change dir eid (Some mv') mw ms (step + 1)) (fun _ =>
              bind (get_element_sw_version eid) (fun _ => ret RNone))))
    end).
Proof.
  intros Hle; unfold staged_change; cbn [staged_rec].
  replace (ms <? step + 1) with false by (symmetry; apply Z.ltb_ge; lia).
  replace (Z.to_nat (ms - step)) with (S (Z.to_nat (ms - (step + 1)))) by lia.
  reflexivity.
Qed.

(** Past the step budget the engine returns [False] at once. *)
Lemma staged_change_limit (dir : direction) (eid mv : option string)
    (mw ms step : Z) (s : W * list event) :
  ms < step + 1 -> staged_change dir eid mv mw ms step s = (Ok RFalse, s).
Proof.
  intros Hlt; unfold staged_change; cbn [staged_rec].
  replace (ms <? step + 1) with true by (symmetry; apply Z.ltb_lt; lia).
  reflexivity.
Qed.

End Protocol.

(** ** Claims about the change-and-wait protocol and the engine *)

Section EngineClaims.
Context {W : Type} {sdk : SDK W}.

(** C4: a run of the staged engine with step budget [max_steps] issues at
    most [max_steps] [execute_upgrade] calls and at most [max_steps] change
    requests (software-state writes); once the step counter exceeds the
    budget no further call is made.  On the documentation's tenant, a run
    from 4.5.2 to 5.2.7 needs three hops (three change requests with budget
    5), and with budget 2 it issues exactly two change requests and stops. *)
Theorem C4_step_budget_bounds_changes (dir : direction) (eid mv : option string)
    (max_wait max_steps : Z) (w : W) (log : list event) :
  (let '(_, (_, log')) := staged_change dir eid mv max_wait max_steps 0 (w, log) in
   exists tr, log' = app log tr /\
     (count_apply tr <= Z.to_nat max_steps)%nat /\
     (count_put tr <= Z.to_nat max_steps)%nat) /\
  count_put (snd (snd (run (staged_upgrade (Some "E1") (Some "5.2.7") 240 5 0)
                          (sim_at "4.5.2")))) = 3%nat /\
  count_put (snd (snd (run (staged_upgrade (Some "E1") (Some "5.2.7") 240 2 0)
                          (sim_at "4.5.2")))) = 2%nat.
Proof.
  split; [|split; vm_compute; reflexivity].
  destruct (staged_change dir eid mv max_wait max_steps 0 (w, log))
    as [r [w' log']] eqn:H.
  destruct (within_staged_change is_apply
              (fun e H => ltac:(rewrite H; reflexivity))
              (fun _ _ _ _ _ _ _ => eq_refl)
              dir eid mv max_wait max_steps 0 _ _ _ _ _ H) as (tr1 & Hl1 & H1).
  destruct (within_staged_change is_put
              (fun e H => ltac:(rewrite H, orb_true_r; reflexivity))
              (fun _ _ _ _ _ _ H => ltac:(discriminate H))
              dir eid mv max_wait max_steps 0 _ _ _ _ _ H) as (tr2 & Hl2 & H2).
  rewrite Hl1 in Hl2; apply app_inv_head in Hl2; subst tr2.
  exists tr1; rewrite Z.sub_0_r in H1, H2; split; [exact Hl1|split; assumption].
Qed.

(** C7: [wait_for_upgade] reads the device's version once, then sleeps a
    fixed 10 seconds before each re-read; it stops at the first read that is
    exactly the expected version ([opt_eqb], string equality) and then
    returns [True]; otherwise it keeps polling while budget remains and
    returns [False] (not an exception) once the elapsed 10-second sleeps
    meet or exceed [max_wait].  In the engine, a [False] from the wait after
    a successful change request ends the run with [False] in exactly the
    state the wait left: no further SDK call, so no new change request. *)
Theorem C7_wait_for_upgade_exact_poll (target : string) (eid : option string)
    (max_wait : Z) (w : W) (log : list event) :
  (exists r0 rs b w',
    wait_for_upgade target eid max_wait (w, log) =
      (Ok b, (w', app log (EvGetElement eid (fst r0) (snd r0) :: poll_log eid rs))) /\
    (exists before last, map read_value (r0 :: rs) = app before [last] /\
       Forall (fun v => v <> Some target) before /\ (b = true <-> last = Some target)) /\
    (b = false -> max_wait <= 10 * Z.of_nat (length rs)) /\
    (rs = [] \/ 10 * Z.of_nat (length rs) < max_wait + 10)) /\
  (forall (dir : direction) (mv : option string) (max_steps step : Z)
          (s s1 s2 s3 : W * list event) (mv' uid : string),
     step + 1 <= max_steps ->
     staged_plan dir eid mv s = (Ok (PHop mv' target uid), s1) ->
     execute_upgrade eid uid s1 = (Ok true, s2) ->
     wait_for_upgade target eid max_wait s2 = (Ok false, s3) ->
     staged_change dir eid mv max_wait max_steps step s = (Ok RFalse, s3)).
Proof.
  split; [apply wait_for_upgade_spec|].
  intros dir mv ms step s s1 s2 s3 mv' uid Hle Hplan Hexec Hwait.
  rewrite (staged_change_step _ _ _ _ _ _ Hle).
  rewrite (bind_ok _ _ _ _ _ Hplan).
  rewrite (bind_ok _ _ _ _ _ Hexec); cbn [negb].
  rewrite (bind_ok _ _ _ _ _ Hwait); reflexivity.
Qed.

(** C8: [execute_upgrade] makes one software-state read and, only if it
    succeeded, one write of the record read with its "image_id" field set to
    the image id (every other field, and the order of the fields, as read);
    it returns [False] exactly when the read or the write fails. *)
Theorem C8_execute_upgrade_single_write (eid : option string) (image_id : string)
    (w : W) (log : list event) :
  let '((ok_get, data), w1) := sdk_get_software_state eid w in
  let data' := dict_set data "image_id" (JStr image_id) in
  let '(ok_put, w2) := sdk_put_software_state eid data' w1 in
  execute_upgrade eid image_id (w, log) =
    (if ok_get
     then (Ok ok_put, (w2, app log [EvGetSwState eid true data;
                                    EvPutSwState eid data' ok_put]))
     else (Ok false, (w1, app log [EvGetSwState eid false data]))) /\
  dict_get data' "image_id" = Some (JStr image_id) /\
  (forall k, k <> "image_id" -> dict_get data' k = dict_get data k) /\
  dict_keys data' =
    (if existsb (String.eqb "image_id") (dict_keys data) then dict_keys data
     else app (dict_keys data) ["image_id"]).
Proof.
  destruct (sdk_get_software_state eid w) as [[ok_get data] w1] eqn:Hg.
  cbv zeta.
  destruct (sdk_put_software_state eid (dict_set data "image_id" (JStr image_id)) w1)
    as [ok_put w2] eqn:Hp.
  split; [|split; [|split]].
  - unfold execute_upgrade, bind, call; rewrite Hg.
    destruct ok_get; cbn [negb fst snd].
    + rewrite Hp; destruct ok_put; unfold ret; rewrite <- app_assoc; reflexivity.
    + reflexivity.
  - apply dict_get_set_eq.
  - intros k Hk; apply dict_get_set_neq; exact Hk.
  - apply dict_keys_set.
Qed.

End EngineClaims.

Section EngineResults.
Context {W : Type} {sdk : SDK W}.


(** [go] returns [False] only on paths without any change request, and
    [None] (or an exception) on the paths that run the engine. *)
Lemma go_result (ion cli : string) (ms mw : Z) (vt : option string)
    (w : W) (log : list event) :
  let '(r, (_, log')) := go ion cli ms mw vt (w, log) in
  exists tr, log' = app log tr /\
    ((r = Ok RFalse /\ count_apply tr = 0%nat) \/ r = Ok RNone \/ exists e, r = Exc e).
Proof.
  assert (Hp1 : forall e, is_apply e = true -> is_apply e || is_put e = true)
    by (intros e H; rewrite H; reflexivity).
  assert (Hp2 : forall eid ok d eid' d' ok',
             is_apply (EvGetSwState eid ok d) = true ->
             is_apply (EvPutSwState eid' d' ok') = false) by reflexivity.
  assert (F1 : within is_apply (find_ion_by_sn ion) 0)
    by (apply within_find_ion_by_sn; assumption).
  assert (F2 : forall eid, within is_apply (is_upgrade_or_downgrade eid vt) 0)
    by (intros; apply within_is_upgrade_or_downgrade; assumption).
  assert (F3 : forall dir eid, within is_apply
                 (staged_change dir eid vt mw ms 0) (Z.to_nat (ms - 0)))
    by (intros; apply within_staged_change; assumption).
  destruct (go ion cli ms mw vt (w, log)) as [r [w' log']] eqn:Hgo.
  unfold go in Hgo.
  destruct (find_ion_by_sn ion (w, log)) as [[eid|e] [w1 l1]] eqn:H1.
  2:{ rewrite (bind_exc _ _ _ _ _ H1) in Hgo; inversion Hgo; subst.
      destruct (F1 _ _ _ _ _ H1) as (tr & -> & _).
      exists tr; split; [reflexivity|eauto]. }
  rewrite (bind_ok _ _ _ _ _ H1) in Hgo.
  destruct (F1 _ _ _ _ _ H1) as (tr1 & -> & C1).
  destruct (is_upgrade_or_downgrade eid vt (w1, app log tr1)) as [[act|e] [w2 l2]] eqn:H2.
  2:{ rewrite (bind_exc _ _ _ _ _ H2) in Hgo; inversion Hgo; subst.
      destruct (F2 eid _ _ _ _ _ H2)
        as (tr & -> & _).
      exists (app tr1 tr); rewrite app_assoc; split; [reflexivity|eauto]. }
  rewrite (bind_ok _ _ _ _ _ H2) in Hgo.
  destruct (F2 eid _ _ _ _ _ H2)
    as (tr2 & -> & C2).
  assert (Hstop : r = Ok RFalse -> log' = app (app log tr1) tr2 ->
                  exists tr, log' = app log tr /\
                    ((r = Ok RFalse /\ count_apply tr = 0%nat) \/ r = Ok RNone \/
                     exists e, r = Exc e)).
  { intros -> ->; exists (app tr1 tr2); rewrite app_assoc; split; [reflexivity|].
    left; split; [reflexivity|]; unfold count_apply; rewrite count_app; lia. }
  assert (Hrun : forall (m : M (W * list event) pyret),
             bind m (fun _ => ret RNone) (w2, app (app log tr1) tr2) = (r, (w', log')) ->
             within is_apply m (Z.to_nat (ms - 0)) ->
             exists tr, log' = app log tr /\
               ((r = Ok RFalse /\ count_apply tr = 0%nat) \/ r = Ok RNone \/
                exists e, r = Exc e)).
  { intros m Hm Hw.
    unfold bind in Hm.
    destruct (m (w2, app (app log tr1) tr2)) as [[v|e] [w3 l3]] eqn:E;
      inversion Hm; subst;
      destruct (Hw _ _ _ _ _ E) as (tr3 & -> & _);
      exists (app (app tr1 tr2) tr3); rewrite !app_assoc; split; auto; eauto. }
  destruct act as [act|]; [|inversion Hgo; subst; auto].
  destruct (negb (String.eqb cli "auto") && negb (String.eqb cli act)); [inversion Hgo; subst; auto|].
  destruct (negb (truthy eid)); [inversion Hgo; subst; auto|].
  destruct (String.eqb act "upgrade").
  - apply (Hrun _ Hgo); apply F3.
  - destruct (String.eqb act "downgrade").
    + apply (Hrun _ Hgo); apply F3.
    + inversion Hgo; subst; auto.
Qed.

End EngineResults.

Section GoClaims.
Context {W : Type} {sdk : SDK W}.

(** C5 (amended): the run's value is no summary.  [staged_upgrade] and
    [staged_downgrade] return only [False] or [None] (or raise), and [go]
    discards that value: it returns [False] only on paths where no change
    request was made, and [None] (or raises) whenever a change request was
    made, whatever the terminal outcome; steps completed, final version and
    outcome are only printed. *)
Theorem C5_go_value_not_a_summary (ion_serial cli_action : string)
    (max_steps max_wait : Z) (version_target : option string)
    (w : W) (log : list event) :
  let '(r, (_, log')) := go ion_serial cli_action max_steps max_wait version_target (w, log) in
  exists tr, log' = app log tr /\
    (r = Ok RFalse -> count_apply tr = 0%nat) /\
    ((0 < count_apply tr)%nat -> forall v, r = Ok v -> v = RNone).
Proof.
  pose proof (go_result ion_serial cli_action max_steps max_wait version_target w log) as H.
  destruct (go ion_serial cli_action max_steps max_wait version_target (w, log))
    as [r [w' log']].
  destruct H as (tr & Hlog & Hcase); exists tr; split; [exact Hlog|].
  destruct Hcase as [[-> Hc]|[->|[e ->]]]; split.
  - intros _; exact Hc.
  - intros Hlt; lia.
  - intros Hf; discriminate Hf.
  - intros _ v Hv; injection Hv; auto.
  - intros Hf; discriminate Hf.
  - intros _ v Hv; discriminate Hv.
Qed.

End GoClaims.

(** ** Concrete runs on the simulated tenant *)

(** C1 (code bug): when major and minor are equal, the decider compares
    the minor numbers a second time (the source comment says it checks the
    micro version), so the micro number is never compared: current 5.2.5
    and 5.2.9 against target 5.2.7 are both decided as at target, while the
    spec's examples 4.5.9 (upgrade), 5.4.1 (downgrade) and 5.2.7-b22 (at
    target) come out as stated. *)
Theorem C1_micro_not_compared :
  fst (run (is_upgrade_or_downgrade (Some "E1") (Some "5.2.7")) (sim_at "5.2.5")) = Ok None /\
  fst (run (is_upgrade_or_downgrade (Some "E1") (Some "5.2.7")) (sim_at "5.2.9")) = Ok None /\
  fst (run (is_upgrade_or_downgrade (Some "E1") (Some "5.2.7")) (sim_at "4.5.9"))
    = Ok (Some "upgrade") /\
  fst (run (is_upgrade_or_downgrade (Some "E1") (Some "5.2.7")) (sim_at "5.4.1"))
    = Ok (Some "downgrade") /\
  fst (run (is_upgrade_or_downgrade (Some "E1") (Some "5.2.7")) (sim_at "5.2.7-b22"))
    = Ok None.
Proof. vm_compute; repeat split. Qed.

(** C3 (code bug): when the matching path-table entry names a hop that is
    not in the catalog, the scan evaluates [image_dict[None]['id']] and
    raises [KeyError] before the [Could not find next version] branch is
    reached, and no change request is made; when no entry matches, the step
    does end in that reported failure ([False]). *)
Theorem C3_unresolved_hop_raises :
  fst (run (staged_upgrade (Some "E1") (Some "5.2.7") 240 5 0) sim_no_hop) = Exc KeyError /\
  count_put (snd (run_state (staged_upgrade (Some "E1") (Some "5.2.7") 240 5 0) sim_no_hop))
    = 0%nat /\
  fst (run (staged_upgrade (Some "E1") (Some "5.2.7") 240 5 0) (sim_at "6.0.1")) = Ok RFalse.
Proof. vm_compute; repeat split. Qed.

(** C5: a run stopped by the step limit after one of two hops and a run that
    reaches its target return the same value, from the engine and from
    [go]. *)
Lemma C5_limit_and_done_indistinguishable :
  fst (run (staged_upgrade (Some "E1") (Some "5.4.3") 240 1 0) (sim_at "5.0.3-b7")) = Ok RNone /\
  sim_version (fst (run_state (staged_upgrade (Some "E1") (Some "5.4.3") 240 1 0)
                      (sim_at "5.0.3-b7"))) = "5.2.7-b22" /\
  fst (run (staged_upgrade (Some "E1") (Some "5.4.3") 240 5 0) (sim_at "5.0.3-b7")) = Ok RNone /\
  sim_version (fst (run_state (staged_upgrade (Some "E1") (Some "5.4.3") 240 5 0)
                      (sim_at "5.0.3-b7"))) = "5.4.3-b2" /\
  fst (run (go "ION-SN-1" "auto" 1 240 (Some "5.4.3")) (sim_at "5.0.3-b7")) =
  fst (run (go "ION-SN-1" "auto" 5 240 (Some "5.4.3")) (sim_at "5.0.3-b7")).
Proof. vm_compute; repeat split. Qed.

(** C7: on a device that never changes version the wait times out and the
    engine returns [False] after its single change request. *)
Lemma C7_wait_for_upgade_exact_poll_witness :
  staged_change Upgrade (Some "E1") (Some "5.2.7") 30 5 0 (sim_stuck "4.5.2", []) =
  (Ok RFalse,
   snd (wait_for_upgade "4.7.1-b4" (Some "E1") 30
     (snd (execute_upgrade (Some "E1") "id-4.7.1-b4"
       (snd (staged_plan Upgrade (Some "E1") (Some "5.2.7") (sim_stuck "4.5.2", []))))))).
Proof.
  apply (proj2 (C7_wait_for_upgade_exact_poll "4.7.1-b4" (Some "E1") 30
                  (sim_stuck "4.5.2") []))
    with (mv' := "5.2.7") (uid := "id-4.7.1-b4")
         (s1 := snd (staged_plan Upgrade (Some "E1") (Some "5.2.7") (sim_stuck "4.5.2", [])))
         (s2 := snd (execute_upgrade (Some "E1") "id-4.7.1-b4"
                  (snd (staged_plan Upgrade (Some "E1") (Some "5.2.7")
                          (sim_stuck "4.5.2", []))))).
  - lia.
  - vm_compute; reflexivity.
  - vm_compute; reflexivity.
  - vm_compute; reflexivity.
Defined.


(** ** The path-table scan *)

Lemma dict_get_in_keys {V : Type} (d : pydict V) (k : string) :
  In k (dict_keys d) -> exists v, dict_get d k = Some v.
Proof.
  induction d as [|[k0 v0] d IH]; simpl; [intros []|].
  intros [->|Hin].
  - rewrite String.eqb_refl; eauto.
  - destruct (String.eqb k k0); eauto.
Qed.

Lemma get_exact_keys_in (spec k : string) (keys : list string) :
  get_exact_keys spec keys = Some k -> In k keys.
Proof.
  induction keys as [|x keys IH]; simpl; [discriminate|].
  destruct (py_in spec x); [intros H; inversion H; auto|auto].
Qed.

Lemma path_scan_resolved (table : path_table) (cur : string) (image_dict : catalog)
    (acc : option string * option string) :
  (forall path spec, In (path, spec) table -> re_match path cur = true ->
     get_exact_major_minor_micro spec image_dict <> None) ->
  path_scan table (Some cur) image_dict acc =
  Ok (match last_match table cur with
      | Some spec => hop_of spec image_dict
      | None => acc
      end).
Proof.
  revert acc; induction table as [|[path spec] table IH]; intros acc Hres; [reflexivity|].
  cbn [path_scan last_match].
  assert (Hres' : forall path' spec', In (path', spec') table -> re_match path' cur = true ->
                    get_exact_major_minor_micro spec' image_dict <> None)
    by (intros; apply (Hres path' spec'); simpl; auto).
  destruct (re_match path cur) eqn:Hm.
  - destruct (get_exact_major_minor_micro spec image_dict) as [uv|] eqn:Hg.
    2:{ exfalso; apply (Hres path spec); simpl; auto. }
    destruct (dict_get_in_keys image_dict uv (get_exact_keys_in _ _ _ Hg)) as [im Him].
    rewrite Him, (IH _ Hres').
    destruct (last_match table cur); [reflexivity|].
    unfold hop_of; rewrite Hg, Him; reflexivity.
  - rewrite (IH _ Hres'); destruct (last_match table cur); reflexivity.
Qed.

Lemma path_scan_unresolved (table : path_table) (cur : string) (image_dict : catalog)
    (acc : option string * option string) (path spec : string) :
  In (path, spec) table -> re_match path cur = true ->
  get_exact_major_minor_micro spec image_dict = None ->
  path_scan table (Some cur) image_dict acc = Exc KeyError.
Proof.
  revert acc; induction table as [|[path0 spec0] table IH]; intros acc Hin Hm Hg;
    [destruct Hin|].
  cbn [path_scan].
  destruct Hin as [Heq|Hin].
  - inversion Heq; subst; rewrite Hm, Hg; reflexivity.
  - destruct (re_match path0 cur); [|apply IH; assumption].
    destruct (get_exact_major_minor_micro spec0 image_dict) as [uv|]; [|reflexivity].
    destruct (dict_get image_dict uv); [apply IH; assumption|reflexivity].
Qed.

Lemma rmatch_star_any (s : string) : rmatch s [RStar RAny] = true.
Proof. destruct s; simpl; [reflexivity|apply Bool.orb_true_r]. Qed.

Lemma rmatch_pat4 (a b : ascii) (cur : string) :
  rmatch cur (pat4 a b) = true ->
  exists r, cur = String a (String "." (String b (String "." r))).
Proof.
  unfold pat4; destruct cur as [|c1 [|c2 [|c3 [|c4 r]]]]; cbn -[Ascii.eqb];
    rewrite ?Bool.andb_false_r; try discriminate.
  rewrite !Bool.andb_true_iff, !Ascii.eqb_eq.
  intros (-> & -> & -> & -> & _); eauto.
Qed.

(** Every pattern of the two tables is [a\.b\..*] for its own [a] and [b]. *)
Lemma path_regex_shape (dir : direction) (path spec : string) :
  In (path, spec) (path_regex dir) ->
  exists a b, path = String a (String "\" (String "." (String b "\..*"))) /\
              re_compile path = pat4 a b.
Proof.
  destruct dir; simpl; intros H;
    repeat (destruct H as [H|H]; [inversion H; subst; do 2 eexists; split; reflexivity|]);
    destruct H.
Qed.

Lemma path_regex_exclusive (dir : direction) (cur path1 spec1 path2 spec2 : string) :
  In (path1, spec1) (path_regex dir) -> In (path2, spec2) (path_regex dir) ->
  re_match path1 cur = true -> re_match path2 cur = true ->
  (path1, spec1) = (path2, spec2).
Proof.
  intros H1 H2 M1 M2.
  destruct (path_regex_shape _ _ _ H1) as (a1 & b1 & Hp1 & Hc1).
  destruct (path_regex_shape _ _ _ H2) as (a2 & b2 & Hp2 & Hc2).
  unfold re_match in M1, M2; rewrite Hc1 in M1; rewrite Hc2 in M2.
  destruct (rmatch_pat4 _ _ _ M1) as (r1 & E1).
  destruct (rmatch_pat4 _ _ _ M2) as (r2 & E2).
  rewrite E1 in E2; injection E2 as Ha Hb _; subst a2 b2.
  subst path1 path2.
  clear - H1 H2.
  destruct dir; simpl in H1, H2; intuition congruence.
Qed.

(** C2 (amended): the scan visits every entry and each matching entry
    overwrites the hop, so when every matching entry's specifier resolves
    the result is the hop of the LAST matching entry (no hop when none
    matches).  In the two tables of the script at most one entry matches
    any version, so there the last matching entry is also the first. *)
Theorem C2_path_scan_last_match (table : path_table) (cur : string) (image_dict : catalog) :
  ((forall path spec, In (path, spec) table -> re_match path cur = true ->
      get_exact_major_minor_micro spec image_dict <> None) ->
   path_scan table (Some cur) image_dict (None, None) =
   Ok (last_match_hop table cur image_dict)) /\
  (forall dir path1 spec1 path2 spec2,
     In (path1, spec1) (path_regex dir) -> In (path2, spec2) (path_regex dir) ->
     re_match path1 cur = true -> re_match path2 cur = true ->
     (path1, spec1) = (path2, spec2)).
Proof.
  split.
  - intros Hres; rewrite (path_scan_resolved _ _ _ _ Hres).
    unfold last_match_hop; destruct (last_match table cur); reflexivity.
  - intros dir; apply path_regex_exclusive.
Qed.

(** C2: with the upgrade table, a 4.5.2 device on the tenant catalog hops
    to 4.7.1-b4. *)
Lemma C2_path_scan_last_match_witness :
  path_scan upgrade_path_regex (Some "4.5.2") tenant_catalog (None, None) =
  Ok (last_match_hop upgrade_path_regex "4.5.2" tenant_catalog) /\
  last_match_hop upgrade_path_regex "4.5.2" tenant_catalog
    = (Some "4.7.1-b4", Some "id-4.7.1-b4").
Proof.
  split.
  - apply (proj1 (C2_path_scan_last_match upgrade_path_regex "4.5.2" tenant_catalog)).
    intros path spec Hin Hm; simpl in Hin;
      repeat (destruct Hin as [Hin|Hin];
              [inversion Hin; subst; vm_compute in Hm |- *; congruence|]);
      destruct Hin.
  - vm_compute; reflexivity.
Defined.

(** C2: when two entries match 4.5.2, the scan uses the second one (to
    5.0.3), although the first one's specifier 4.7.1 resolves. *)
Lemma C2_later_match_wins :
  re_match "4\.5\..*" "4.5.2" = true /\ re_match "4\..*" "4.5.2" = true /\
  get_exact_major_minor_micro "4.7.1" tenant_catalog = Some "4.7.1-b4" /\
  path_scan overlapping_table (Some "4.5.2") tenant_catalog (None, None) =
  Ok (Some "5.0.3-b7", Some "id-5.0.3-b7").
Proof. vm_compute; repeat split. Qed.

(** ** Target resolution *)

Lemma tuple_lt_iff (a b : Z * Z * Z) :
  tuple_lt a b = true <->
  let '(a1, a2, a3) := a in let '(b1, b2, b3) := b in
  a1 < b1 \/ (a1 = b1 /\ (a2 < b2 \/ (a2 = b2 /\ a3 < b3))).
Proof.
  destruct a as [[a1 a2] a3], b as [[b1 b2] b3]; cbn.
  rewrite !Bool.orb_true_iff, !Bool.andb_true_iff, !Bool.orb_true_iff,
    !Bool.andb_true_iff, !Z.ltb_lt, !Z.eqb_eq; tauto.
Qed.

Lemma tuple_lt_false (a b : Z * Z * Z) :
  tuple_lt a b = false <->
  ~ (let '(a1, a2, a3) := a in let '(b1, b2, b3) := b in
     a1 < b1 \/ (a1 = b1 /\ (a2 < b2 \/ (a2 = b2 /\ a3 < b3)))).
Proof.
  rewrite <- tuple_lt_iff; destruct (tuple_lt a b); split; congruence || tauto.
Qed.

Ltac tuple_lia :=
  repeat match goal with
  | H : tuple_lt _ _ = true |- _ => apply tuple_lt_iff in H
  | H : tuple_lt _ _ = false |- _ => apply tuple_lt_false in H
  | |- tuple_lt _ _ = true => apply tuple_lt_iff
  | |- tuple_lt _ _ = false => apply tuple_lt_false
  end;
  repeat match goal with
  | x : (Z * Z * Z)%type |- _ => destruct x as [[? ?] ?]
  end;
  cbn in *; lia.

Lemma replaces_irrefl (dir : direction) (v : Z * Z * Z) : replaces dir v v = false.
Proof. destruct dir; unfold replaces; tuple_lia. Qed.

Lemma replaces_asym (dir : direction) (x y : Z * Z * Z) :
  replaces dir x y = true -> replaces dir y x = false.
Proof. destruct dir; unfold replaces; intros; tuple_lia. Qed.

Lemma replaces_chain (dir : direction) (x y z : Z * Z * Z) :
  replaces dir y z = false -> replaces dir x z = true -> replaces dir x y = true.
Proof. destruct dir; unfold replaces; intros; tuple_lia. Qed.

Lemma minmax_loop_spec (dir : direction) (items : list string) :
  forall pre best bv post m,
  major_minor_micro best = Ok bv ->
  Forall (fun k => exists vk, major_minor_micro k = Ok vk /\ replaces dir bv vk = true) pre ->
  Forall (fun k => exists vk, major_minor_micro k = Ok vk /\ replaces dir vk bv = false) post ->
  minmax_loop dir best bv items = Ok m ->
  exists pre' post' vm,
    app pre (best :: app post items) = app pre' (m :: post') /\
    major_minor_micro m = Ok vm /\
    Forall (fun k => exists vk, major_minor_micro k = Ok vk /\ replaces dir vm vk = true) pre' /\
    Forall (fun k => exists vk, major_minor_micro k = Ok vk /\ replaces dir vk vm = false) post'.
Proof.
  induction items as [|x items IH]; intros pre best bv post m Hb Hpre Hpost Hloop;
    cbn [minmax_loop] in Hloop.
  - injection Hloop as <-.
    exists pre, post, bv; rewrite app_nil_r; auto.
  - destruct (major_minor_micro x) as [vx|e] eqn:Hx; [|discriminate].
    destruct (replaces dir vx bv) eqn:Hr.
    + destruct (IH (app pre (best :: post)) x vx [] m Hx) as (pre' & post' & vm & E & R);
        [| constructor | exact Hloop |].
      * apply Forall_app; split; [|constructor].
        -- eapply Forall_impl; [|exact Hpre]; intros k (vk & Hk & Hbk).
           exists vk; split; [exact Hk|].
           apply (replaces_chain _ _ _ bv); [apply replaces_asym|]; assumption.
        -- exists bv; split; [exact Hb|].
           apply (replaces_chain _ _ _ bv); [apply replaces_irrefl|assumption].
        -- eapply Forall_impl; [|exact Hpost]; intros k (vk & Hk & Hkb).
           exists vk; split; [exact Hk|].
           apply (replaces_chain _ _ _ bv); assumption.
      * exists pre', post', vm; split; [|exact R].
        rewrite <- E, <- app_assoc; reflexivity.
    + destruct (IH pre best bv (app post [x]) m Hb Hpre) as (pre' & post' & vm & E & R);
        [| exact Hloop |].
      * apply Forall_app; split; [exact Hpost|].
        constructor; [exists vx; split; assumption|constructor].
      * exists pre', post', vm; split; [|exact R].
        rewrite <- E, <- app_assoc; reflexivity.
Qed.

Lemma minmax_by_version_ok (dir : direction) (keys : list string) (m : string) :
  minmax_by_version dir keys = Ok m ->
  exists pre post vm, keys = app pre (m :: post) /\ major_minor_micro m = Ok vm /\
    Forall (fun k => exists vk, major_minor_micro k = Ok vk /\ replaces dir vm vk = true) pre /\
    Forall (fun k => exists vk, major_minor_micro k = Ok vk /\ replaces dir vk vm = false) post.
Proof.
  destruct keys as [|x keys]; cbn [minmax_by_version]; [discriminate|].
  destruct (major_minor_micro x) as [vx|e] eqn:Hx; [|discriminate].
  intros H; exact (minmax_loop_spec dir keys [] x vx [] m Hx
                     (Forall_nil _) (Forall_nil _) H).
Qed.

Lemma minmax_loop_exc (dir : direction) (items : list string) :
  forall best bv e, minmax_loop dir best bv items = Exc e ->
  exists k, In k items /\ major_minor_micro k = Exc e.
Proof.
  induction items as [|x items IH]; intros best bv e H; cbn [minmax_loop] in H;
    [discriminate|].
  destruct (major_minor_micro x) as [vx|e'] eqn:Hx.
  - destruct (replaces dir vx bv);
      destruct (IH _ _ _ H) as (k & Hin & Hk); exists k; simpl; auto.
  - injection H as <-; exists x; simpl; auto.
Qed.

Lemma minmax_by_version_exc (dir : direction) (keys : list string) (e : exn) :
  minmax_by_version dir keys = Exc e ->
  (keys = [] /\ e = ValueError) \/ exists k, In k keys /\ major_minor_micro k = Exc e.
Proof.
  destruct keys as [|x keys]; cbn [minmax_by_version].
  - injection 1 as <-; auto.
  - destruct (major_minor_micro x) as [vx|e'] eqn:Hx.
    + intros H; destruct (minmax_loop_exc _ _ _ _ _ H) as (k & Hin & Hk).
      right; exists k; simpl; auto.
    + injection 1 as <-; right; exists x; simpl; auto.
Qed.

Lemma prefix_refl (s : string) : String.prefix s s = true.
Proof.
  induction s as [|c s IH]; simpl; [reflexivity|].
  destruct (Ascii.ascii_dec c c); [exact IH|congruence].
Qed.

Lemma py_in_refl (s : string) : py_in s s = true.
Proof. destruct s as [|c s]; [reflexivity|]; cbn [py_in]; rewrite prefix_refl; reflexivity. Qed.

Lemma get_exact_keys_some (spec k : string) (keys : list string) :
  get_exact_keys spec keys = Some k ->
  exists pre post, keys = app pre (k :: post) /\ py_in spec k = true /\
    Forall (fun k' => py_in spec k' = false) pre.
Proof.
  induction keys as [|x keys IH]; simpl; [discriminate|].
  destruct (py_in spec x) eqn:Hx.
  - injection 1 as <-; exists [], keys; auto.
  - intros H; destruct (IH H) as (pre & post & -> & Hk & Hpre).
    exists (x :: pre), post; auto.
Qed.

Lemma get_exact_keys_none (spec : string) (keys : list string) :
  get_exact_keys spec keys = None <-> Forall (fun k => py_in spec k = false) keys.
Proof.
  induction keys as [|x keys IH]; simpl; [split; auto|].
  destruct (py_in spec x) eqn:Hx; split.
  - discriminate.
  - intros H; inversion H; congruence.
  - intros H; constructor; [exact Hx|apply IH, H].
  - intros H; inversion H; apply IH; assumption.
Qed.

Lemma get_exact_keys_member (k : string) (keys : list string) :
  In k keys -> get_exact_keys k keys <> None.
Proof.
  intros Hin Hn; apply get_exact_keys_none in Hn.
  rewrite Forall_forall in Hn; specialize (Hn k Hin).
  rewrite py_in_refl in Hn; discriminate.
Qed.

Lemma scan_exact_version_spec (spec : string) (keys : list string) :
  forall acc,
  (scan_exact_version spec keys acc = acc /\ Forall (fun k => py_in spec k = false) keys) \/
  (exists pre k post, keys = app pre (k :: post) /\ py_in spec k = true /\
     Forall (fun k' => py_in spec k' = false) post /\
     scan_exact_version spec keys acc = Some k).
Proof.
  induction keys as [|x keys IH]; intros acc; simpl; [left; auto|].
  destruct (IH (if py_in spec x then Some x else acc))
    as [[-> Hall]|(pre & k & post & -> & Hk & Hpost & Hs)].
  - destruct (py_in spec x) eqn:Hx.
    + right; exists [], x, keys; auto.
    + left; auto.
  - right; exists (x :: pre), k, post; auto.
Qed.

(** C6 (amended): with a non-empty specifier the target stays the
    specifier and is resolved to the first catalog key containing it (no
    key when none does).  With an absent or empty specifier the target is
    the first key of greatest (upgrade) or least (downgrade) parsed version
    (every earlier key strictly below/above it, no later key beyond it); it
    is resolved, again, to the first key containing it, which is always
    found but need not be that key; and the resolution raises [ValueError]
    on an empty catalog, or the error of an unparsable key.  The engine's
    own existence check instead takes the LAST key containing the target. *)
Theorem C6_target_resolution (dir : direction) (image_dict : catalog) :
  (forall spec, spec <> "" ->
     target_resolution dir (Some spec) image_dict =
     Ok (spec, get_exact_major_minor_micro spec image_dict)) /\
  (forall spec k, get_exact_major_minor_micro spec image_dict = Some k ->
     exists pre post, dict_keys image_dict = app pre (k :: post) /\ py_in spec k = true /\
       Forall (fun k' => py_in spec k' = false) pre) /\
  (forall spec, get_exact_major_minor_micro spec image_dict = None <->
     Forall (fun k => py_in spec k = false) (dict_keys image_dict)) /\
  (forall mv m ex, (mv = None \/ mv = Some "") ->
     target_resolution dir mv image_dict = Ok (m, ex) ->
     ex = get_exact_major_minor_micro m image_dict /\ ex <> None /\
     exists pre post vm, dict_keys image_dict = app pre (m :: post) /\
       major_minor_micro m = Ok vm /\
       Forall (fun k => exists vk, major_minor_micro k = Ok vk /\ replaces dir vm vk = true) pre /\
       Forall (fun k => exists vk, major_minor_micro k = Ok vk /\ replaces dir vk vm = false) post) /\
  (forall mv e, (mv = None \/ mv = Some "") ->
     target_resolution dir mv image_dict = Exc e ->
     (dict_keys image_dict = [] /\ e = ValueError) \/
     exists k, In k (dict_keys image_dict) /\ major_minor_micro k = Exc e) /\
  (forall spec k, scan_exact_version spec (dict_keys image_dict) None = Some k ->
     exists pre post, dict_keys image_dict = app pre (k :: post) /\ py_in spec k = true /\
       Forall (fun k' => py_in spec k' = false) post) /\
  (forall spec, scan_exact_version spec (dict_keys image_dict) None = None <->
     Forall (fun k => py_in spec k = false) (dict_keys image_dict)).
Proof.
  assert (Habs : forall mv, mv = None \/ mv = Some "" ->
            target_resolution dir mv image_dict =
            match minmax_by_version dir (dict_keys image_dict) with
            | Exc e => Exc e
            | Ok m => Ok (m, get_exact_major_minor_micro m image_dict)
            end) by (intros mv [-> | ->]; reflexivity).
  split; [|split; [|split; [|split; [|split; [|split]]]]].
  - intros [|c s] Hne; [congruence|reflexivity].
  - intros spec k; apply get_exact_keys_some.
  - intros spec; apply get_exact_keys_none.
  - intros mv m ex Hmv; rewrite (Habs mv Hmv).
    destruct (minmax_by_version dir (dict_keys image_dict)) as [m'|e] eqn:Hmm;
      [|discriminate].
    injection 1 as <- <-.
    destruct (minmax_by_version_ok _ _ _ Hmm) as (pre & post & vm & Hk & R).
    split; [reflexivity|split].
    + apply get_exact_keys_member; rewrite Hk; apply in_or_app; simpl; auto.
    + exists pre, post, vm; split; [exact Hk|exact R].
  - intros mv e Hmv; rewrite (Habs mv Hmv).
    destruct (minmax_by_version dir (dict_keys image_dict)) as [m'|e'] eqn:Hmm;
      [discriminate|].
    injection 1 as <-; exact (minmax_by_version_exc _ _ _ Hmm).
  - intros spec k Hs.
    destruct (scan_exact_version_spec spec (dict_keys image_dict) None)
      as [[Hn _]|(pre & k' & post & Hk & Hin & Hpost & Hs')]; [congruence|].
    rewrite Hs in Hs'; injection Hs' as <-; exists pre, post; auto.
  - intros spec.
    destruct (scan_exact_version_spec spec (dict_keys image_dict) None)
      as [[Hn Hall]|(pre & k' & post & Hk & Hin & Hpost & Hs')].
    + rewrite Hn; split; auto.
    + rewrite Hs'; split; [discriminate|].
      rewrite Forall_forall; intros Hall.
      rewrite (Hall k') in Hin; [discriminate|].
      rewrite Hk; apply in_or_app; simpl; auto.
Qed.

(** C6: on the tenant catalog, an absent upgrade target is 5.4.3-b2. *)
Lemma C6_target_resolution_witness :
  get_exact_major_minor_micro "5.4.3-b2" tenant_catalog = Some "5.4.3-b2" /\
  Some "5.4.3-b2" <> None /\
  exists pre post vm, dict_keys tenant_catalog = app pre ("5.4.3-b2" :: post) /\
    major_minor_micro "5.4.3-b2" = Ok vm /\
    Forall (fun k => exists vk, major_minor_micro k = Ok vk /\
                                replaces Upgrade vm vk = true) pre /\
    Forall (fun k => exists vk, major_minor_micro k = Ok vk /\
                                replaces Upgrade vk vm = false) post.
Proof.
  apply (proj1 (proj2 (proj2 (proj2 (C6_target_resolution Upgrade tenant_catalog))))
           None "5.4.3-b2" (Some "5.4.3-b2")).
  - left; reflexivity.
  - vm_compute; reflexivity.
Defined.

(** C6: an absent upgrade target on the catalog [4.0.0-5.2.7; 5.2.7] is
    5.2.7, resolved to the key 4.0.0-5.2.7 of the smaller version 4.0.0,
    while the engine's existence check finds 5.2.7; a catalog with a key
    without a version pattern makes the resolution raise. *)
Lemma C6_resolution_not_the_maximum :
  target_resolution Upgrade None
    [("4.0.0-5.2.7", img "4.0.0-5.2.7"); ("5.2.7", img "5.2.7")] =
  Ok ("5.2.7", Some "4.0.0-5.2.7") /\
  major_minor_micro "4.0.0-5.2.7" = Ok (4, 0, 0) /\
  major_minor_micro "5.2.7" = Ok (5, 2, 7) /\
  scan_exact_version "5.2.7" ["4.0.0-5.2.7"; "5.2.7"] None = Some "5.2.7" /\
  target_resolution Upgrade None [("5.2.7-b22", img "5.2.7-b22"); ("beta", img "beta")] =
  Exc AttributeError.
Proof. vm_compute; repeat split. Qed.

(** ** Instances of the statements with nested hypotheses *)

(** C8: writing image id X on the simulated device keeps its version field. *)
Lemma C8_execute_upgrade_single_write_witness :
  dict_get (dict_set [("image_id", JStr "id-old"); ("version", JNum 1)]
              "image_id" (JStr "X")) "version" = Some (JNum 1).
Proof.
  pose proof (C8_execute_upgrade_single_write (Some "E1") "X" (sim_at "4.5.2") []) as H.
  destruct H as (_ & _ & H & _).
  exact (H "version" ltac:(discriminate)).
Defined.

(** C9: 5.2.7-b22 has the pattern, and parses to (5, 2, 7). *)
Lemma C9_major_minor_micro_first_occurrence_witness :
  has_mmm_pattern "5.2.7-b22" /\ major_minor_micro "5.2.7-b22" = Ok (5, 2, 7).
Proof.
  split; [|vm_compute; reflexivity].
  apply (proj1 (proj2 (C9_major_minor_micro_first_occurrence "5.2.7-b22"))).
  exists (5, 2, 7); vm_compute; reflexivity.
Defined.

(** ** Further properties of the script *)

Lemma find_app {T : Type} (f : T -> bool) (l1 l2 : list T) :
  find f (app l1 l2) = match find f l1 with Some x => Some x | None => find f l2 end.
Proof. induction l1 as [|x l1 IH]; simpl; [reflexivity|]; destruct (f x); auto. Qed.

Lemma image_dict_fold_get (images : list image) (d : catalog) (v : string) :
  dict_get (fold_left (fun d img => dict_set d (img_version img) img) images d) v =
  match last_image_with v images with Some i => Some i | None => dict_get d v end.
Proof.
  unfold last_image_with; revert d.
  induction images as [|i images IH]; intros d; simpl; [reflexivity|].
  rewrite IH, find_app; simpl.
  destruct (find (fun i0 => String.eqb (img_version i0) v) (rev images)); [reflexivity|].
  destruct (String.eqb_spec (img_version i) v) as [<-|Hne].
  - apply dict_get_set_eq.
  - apply dict_get_set_neq; congruence.
Qed.

Lemma image_dict_fold_keys (images : list image) (d : catalog) :
  NoDup (dict_keys d) ->
  NoDup (dict_keys (fold_left (fun d img => dict_set d (img_version img) img) images d)) /\
  (forall v, In v (dict_keys (fold_left (fun d img => dict_set d (img_version img) img) images d))
             <-> In v (dict_keys d) \/ exists i, In i images /\ img_version i = v).
Proof.
  revert d; induction images as [|i images IH]; intros d Hd; simpl.
  - split; [exact Hd|]; intros v; split; [auto|intros [H|(? & [] & _)]; exact H].
  - destruct (IH (dict_set d (img_version i) i)) as [Hnd Hin].
    + rewrite dict_keys_set.
      destruct (existsb (String.eqb (img_version i)) (dict_keys d)) eqn:E; [exact Hd|].
      apply NoDup_app; [exact Hd|constructor; [intros []|constructor]|].
      intros x Hx [<-|[]].
      assert (existsb (String.eqb (img_version i)) (dict_keys d) = true)
        by (apply existsb_exists; exists (img_version i); rewrite String.eqb_refl; auto).
      congruence.
    + split; [exact Hnd|]; intros v; rewrite Hin, dict_keys_set.
      destruct (existsb (String.eqb (img_version i)) (dict_keys d)) eqn:E.
      * apply existsb_exists in E; destruct E as (k & Hk & Ek);
          apply String.eqb_eq in Ek; subst k.
        split.
        -- intros [H|(j & Hj & <-)]; [auto|right; exists j; auto].
        -- intros [H|(j & [<-|Hj] & <-)]; [auto|auto|right; exists j; auto].
      * rewrite in_app_iff; simpl.
        split.
        -- intros [[H|[<-|[]]]|(j & Hj & <-)]; [auto|right; exists i; auto|right; exists j; auto].
        -- intros [H|(j & [<-|Hj] & <-)]; [auto|left; right; left; reflexivity|right; exists j; auto].
Qed.

Section MoreEngine.
Context {W : Type} {sdk : SDK W}.

(** [get_images_list] (lines 145-154): a failed call gives [None], missing
    items raise [TypeError]; otherwise the catalog has each version of the
    items once as a key, and a version's value is the LAST item with that
    version. *)
Theorem get_images_list_catalog (w : W) (log : list event) :
  (let '((ok, items), w1) := sdk_get_element_images w in
   get_images_list (w, log) =
   ((if ok then
       match items with
       | Some images => Ok (Some (image_dict_of images))
       | None => Exc TypeError
       end
     else Ok None), (w1, app log [EvGetImages ok]))) /\
  (forall images : list image,
     NoDup (dict_keys (image_dict_of images)) /\
     (forall v, In v (dict_keys (image_dict_of images)) <->
                exists i, In i images /\ img_version i = v) /\
     (forall v, dict_get (image_dict_of images) v = last_image_with v images)).
Proof.
  split.
  - unfold get_images_list, bind, call.
    destruct (sdk_get_element_images w) as [[[|] [images|]] w1]; reflexivity.
  - intros images; unfold image_dict_of.
    destruct (image_dict_fold_keys images [] (NoDup_nil _)) as [Hnd Hin].
    split; [exact Hnd|split].
    + intros v; rewrite Hin; simpl; split; [intros [[]|H]; exact H|auto].
    + intros v; rewrite image_dict_fold_get.
      destruct (last_image_with v images); reflexivity.
Qed.

(** [wait_for_upgade] (lines 172-186) never sleeps when [max_wait <= 0]
    or when the first read already shows the target: it reads the version
    once and reports whether that read equals the target. *)
Theorem wait_for_upgade_no_sleep (target : string) (eid : option string)
    (max_wait : Z) (w : W) (log : list event) :
  (max_wait <= 0 \/ read_value (fst (sdk_get_element eid w)) = Some target) ->
  wait_for_upgade target eid max_wait (w, log) =
  (Ok (opt_eqb (read_value (fst (sdk_get_element eid w))) (Some target)),
   (snd (sdk_get_element eid w),
    app log [EvGetElement eid (fst (fst (sdk_get_element eid w)))
                              (snd (fst (sdk_get_element eid w)))])).
Proof.
  intros H; unfold wait_for_upgade.
  rewrite (bind_ok _ _ _ _ _ (get_element_sw_version_run _ _ _)).
  destruct H as [Hle|Heq].
  - replace (Z.to_nat max_wait) with O by lia; cbn [wait_loop].
    unfold ret, bind; cbn.
    destruct (opt_eqb (read_value (fst (sdk_get_element eid w))) (Some target)); reflexivity.
  - rewrite Heq; unfold opt_eqb; rewrite String.eqb_refl.
    destruct (Z.to_nat max_wait); cbn [wait_loop]; unfold ret, bind; cbn;
      rewrite ?String.eqb_refl; cbn; rewrite ?String.eqb_refl; reflexivity.
Qed.

End MoreEngine.

(** The patterns of the two path tables (lines 44-58, used at 219 and 260
    with [re.match]): each entry [a\.b\..*] matches exactly the versions
    that start with [a], a dot, [b] and a dot. *)
Theorem path_regex_match_iff (dir : direction) (path spec cur : string) :
  In (path, spec) (path_regex dir) ->
  exists a b, path = String a (String "\" (String "." (String b "\..*"))) /\
    (re_match path cur = true <->
     exists r, cur = String a (String "." (String b (String "." r)))).
Proof.
  intros Hin; destruct (path_regex_shape _ _ _ Hin) as (a & b & Hp & Hc).
  exists a, b; split; [exact Hp|]; unfold re_match; rewrite Hc; split.
  - apply rmatch_pat4.
  - intros (r & ->); unfold pat4; cbn -[Ascii.eqb].
    rewrite !Ascii.eqb_refl; simpl; apply rmatch_star_any.
Qed.

Lemma str_lt_irrefl (s : string) : str_lt s s = false.
Proof. induction s as [|c s IH]; simpl; [reflexivity|]; rewrite Ascii.eqb_refl; exact IH. Qed.

Section EngineExtras.
Context {W : Type} {sdk : SDK W}.

Lemma get_images_list_run_ok (w : W) (log : list event) images w1 :
  sdk_get_element_images w = ((true, Some images), w1) ->
  get_images_list (w, log) = (Ok (Some (image_dict_of images)), (w1, app log [EvGetImages true])).
Proof. intros E; unfold get_images_list, bind, call; rewrite E; reflexivity. Qed.

Lemma get_images_list_run_fail (w : W) (log : list event) w1 (ok : bool) items :
  sdk_get_element_images w = ((ok, items), w1) ->
  (ok = false \/ items = None) ->
  exists r, get_images_list (w, log) = (r, (w1, app log [EvGetImages ok])) /\
            (r = Ok None \/ r = Exc TypeError).
Proof.
  intros E Hc; unfold get_images_list, bind, call; rewrite E.
  destruct ok, items; destruct Hc; try discriminate;
    (eexists; split; [reflexivity|auto]).
Qed.

(** [is_upgrade_or_downgrade] (lines 290-316) decides on major and minor
    only: whenever it returns, the catalog call succeeded, the device version
    and the resolved target both parse, and the result is upgrade when the
    device's (major, minor) is below the target's, downgrade when it is
    above, and [None] exactly when major and minor are equal, whatever the
    micro numbers. *)
Theorem is_upgrade_or_downgrade_decision (eid tv : option string) (w : W)
    (log : list event) (r : option string) (s' : W * list event) :
  is_upgrade_or_downgrade eid tv (w, log) = (Ok r, s') ->
  exists images w1 cur mv et c1 c2 c3 t1 t2 t3,
    sdk_get_element_images w = ((true, Some images), w1) /\
    read_value (fst (sdk_get_element eid w1)) = Some cur /\
    target_resolution Upgrade tv (image_dict_of images) = Ok (mv, Some et) /\
    major_minor_micro et = Ok (t1, t2, t3) /\ major_minor_micro cur = Ok (c1, c2, c3) /\
    (r = Some "upgrade" <-> c1 < t1 \/ (c1 = t1 /\ c2 < t2)) /\
    (r = Some "downgrade" <-> t1 < c1 \/ (c1 = t1 /\ t2 < c2)) /\
    (r = None <-> c1 = t1 /\ c2 = t2).
Proof.
  intros H; unfold is_upgrade_or_downgrade in H.
  destruct (sdk_get_element_images w) as [[ok items] w1] eqn:Ei.
  assert (Hbad : forall r0, get_images_list (w, log) = (r0, (w1, app log [EvGetImages ok])) ->
            (r0 = Ok None \/ r0 = Exc TypeError) -> False).
  { intros r0 Hr0 [-> | ->].
    - rewrite (bind_ok _ _ _ _ _ Hr0) in H.
      rewrite (bind_ok _ _ _ _ _ (get_element_sw_version_run _ _ _)) in H.
      discriminate H.
    - rewrite (bind_exc _ _ _ _ _ Hr0) in H; discriminate H. }
  destruct ok; [destruct items as [images|]|];
    [|destruct (get_images_list_run_fail w log w1 _ _ Ei ltac:(auto)) as (r0 & Hr0 & Hc);
      exfalso; exact (Hbad r0 Hr0 Hc)..].
  rewrite (bind_ok _ _ _ _ _ (get_images_list_run_ok _ _ _ _ Ei)) in H.
  rewrite (bind_ok _ _ _ _ _ (get_element_sw_version_run _ _ _)) in H.
  cbv beta iota in H.
  destruct (target_resolution Upgrade tv (image_dict_of images)) as [[mv et]|e] eqn:Et;
    [|discriminate H].
  unfold lift at 1 in H; rewrite (bind_ok _ _ _ _ _ eq_refl) in H; cbv beta iota in H.
  destruct et as [et|]; [|discriminate H].
  cbn [major_minor_micro_opt] in H.
  destruct (major_minor_micro et) as [[[t1 t2] t3]|e] eqn:Ht; [|discriminate H].
  cbv beta iota in H.
  unfold lift at 1 in H; rewrite (bind_ok _ _ _ _ _ eq_refl) in H; cbv beta iota in H.
  destruct (read_value (fst (sdk_get_element eid w1))) as [cur|] eqn:Hc; [|discriminate H].
  cbn [major_minor_micro_opt] in H.
  destruct (major_minor_micro cur) as [[[c1 c2] c3]|e] eqn:Hcm; [|discriminate H].
  cbv beta iota in H.
  unfold lift at 1 in H; rewrite (bind_ok _ _ _ _ _ eq_refl) in H; cbv beta iota in H.
  exists images, w1, cur, mv, et, c1, c2, c3, t1, t2, t3.
  do 5 (split; [reflexivity || assumption|]).
  unfold ret in H.
  destruct (Z.ltb_spec c1 t1); [cbv beta iota in H; injection H as <- _; split; [|split]; split; intros; try lia; try discriminate; auto|].
  destruct (Z.ltb_spec t1 c1); [cbv beta iota in H; injection H as <- _; split; [|split]; split; intros; try lia; try discriminate; auto|].
  destruct (Z.ltb_spec c2 t2); [cbv beta iota in H; injection H as <- _; split; [|split]; split; intros; try lia; try discriminate; auto|].
  destruct (Z.ltb_spec t2 c2); [cbv beta iota in H; injection H as <- _; split; [|split]; split; intros; try lia; try discriminate; auto|].
  assert (c2 = t2) by lia; subst t2.
  rewrite str_lt_irrefl in H; injection H as <- _.
  split; [|split]; split; intros; try lia; try discriminate; auto.
Qed.


Lemma image_dict_keys_versions (images : list image) (k : string) :
  In k (dict_keys (image_dict_of images)) -> exists i, In i images /\ img_version i = k.
Proof.
  intros Hk; destruct (image_dict_fold_keys images [] (NoDup_nil _)) as [_ Hin].
  apply Hin in Hk; destruct Hk as [[]|H]; exact H.
Qed.

Lemma image_dict_get_in (images : list image) (v : string) (im : image) :
  dict_get (image_dict_of images) v = Some im -> In im images /\ img_version im = v.
Proof.
  unfold image_dict_of; rewrite image_dict_fold_get; unfold last_image_with.
  destruct (find (fun i => String.eqb (img_version i) v) (rev images)) eqn:E;
    [|discriminate].
  injection 1 as <-.
  destruct (find_some _ _ E) as [Hin Hv].
  split; [apply in_rev; exact Hin|apply String.eqb_eq; exact Hv].
Qed.

(** [is_upgrade_or_downgrade] (lines 290-297) raises instead of deciding
    when the images call fails ([None.keys()], [AttributeError]), when no
    catalog version contains a non-empty target specifier, or when the
    device version cannot be read (both [TypeError], from [re.search] on
    [None]). *)
Theorem is_upgrade_or_downgrade_errors (eid tv : option string) (w : W) (log : list event) :
  (fst (fst (sdk_get_element_images w)) = false ->
   fst (is_upgrade_or_downgrade eid tv (w, log)) = Exc AttributeError) /\
  (forall images w1 spec,
     sdk_get_element_images w = ((true, Some images), w1) ->
     tv = Some spec -> spec <> "" ->
     Forall (fun v => py_in spec v = false) (map img_version images) ->
     fst (is_upgrade_or_downgrade eid tv (w, log)) = Exc TypeError) /\
  (forall images w1 mv et t,
     sdk_get_element_images w = ((true, Some images), w1) ->
     target_resolution Upgrade tv (image_dict_of images) = Ok (mv, Some et) ->
     major_minor_micro et = Ok t ->
     read_value (fst (sdk_get_element eid w1)) = None ->
     fst (is_upgrade_or_downgrade eid tv (w, log)) = Exc TypeError).
Proof.
  split; [|split].
  - intros Hf; unfold is_upgrade_or_downgrade.
    destruct (sdk_get_element_images w) as [[ok items] w1] eqn:Ei; cbn in Hf; subst ok.
    assert (Hg : get_images_list (w, log) = (Ok None, (w1, app log [EvGetImages false])))
      by (unfold get_images_list, bind, call; rewrite Ei; reflexivity).
    rewrite (bind_ok _ _ _ _ _ Hg).
    rewrite (bind_ok _ _ _ _ _ (get_element_sw_version_run _ _ _)); reflexivity.
  - intros images w1 spec Ei -> Hne Hall; unfold is_upgrade_or_downgrade.
    rewrite (bind_ok _ _ _ _ _ (get_images_list_run_ok _ _ _ _ Ei)).
    rewrite (bind_ok _ _ _ _ _ (get_element_sw_version_run _ _ _)).
    assert (Hn : get_exact_major_minor_micro spec (image_dict_of images) = None).
    { apply get_exact_keys_none, Forall_forall; intros k Hk.
      destruct (image_dict_keys_versions _ _ Hk) as (i & Hi & <-).
      rewrite Forall_forall in Hall; apply Hall, in_map, Hi. }
    destruct spec as [|c s0]; [congruence|].
    cbv beta iota; unfold target_resolution; cbv beta iota.
    rewrite Hn; reflexivity.
  - intros images w1 mv et t Ei Et Ht Hc; unfold is_upgrade_or_downgrade.
    rewrite (bind_ok _ _ _ _ _ (get_images_list_run_ok _ _ _ _ Ei)).
    rewrite (bind_ok _ _ _ _ _ (get_element_sw_version_run _ _ _)).
    cbv beta iota; rewrite Et; unfold lift at 1; rewrite (bind_ok _ _ _ _ _ eq_refl).
    cbv beta iota; cbn [major_minor_micro_opt]; rewrite Ht.
    destruct t as [[t1 t2] t3]; cbv beta iota.
    unfold lift at 1; rewrite (bind_ok _ _ _ _ _ eq_refl); cbv beta iota.
    rewrite Hc; reflexivity.
Qed.

(** [go] (lines 319-343) makes a change request only after finding the
    serial, detecting a direction that the requested action allows ([auto]
    or the same direction), and with a step budget of at least one. *)
Theorem go_change_requires_direction (ion_serial cli_action : string)
    (max_steps max_wait : Z) (version_target : option string) (w : W) (log : list event) :
  let '(_, (_, log')) := go ion_serial cli_action max_steps max_wait version_target (w, log) in
  (count_put log < count_put log')%nat ->
  exists eid s1 act s2,
    find_ion_by_sn ion_serial (w, log) = (Ok eid, s1) /\ truthy eid = true /\
    is_upgrade_or_downgrade eid version_target s1 = (Ok (Some act), s2) /\
    (act = "upgrade" \/ act = "downgrade") /\
    (cli_action = "auto" \/ cli_action = act) /\ 0 < max_steps.
Proof.
  assert (Hp1 : forall e, is_put e = true -> is_apply e || is_put e = true)
    by (intros e H; rewrite H, Bool.orb_true_r; reflexivity).
  assert (Hp2 : forall eid ok d eid' d' ok',
             is_put (EvGetSwState eid ok d) = true ->
             is_put (EvPutSwState eid' d' ok') = false) by discriminate.
  assert (F1 : within is_put (find_ion_by_sn ion_serial) 0)
    by (apply within_find_ion_by_sn; assumption).
  assert (F2 : forall eid, within is_put (is_upgrade_or_downgrade eid version_target) 0)
    by (intros; apply within_is_upgrade_or_downgrade; assumption).
  assert (F3 : forall dir eid, within is_put
                 (staged_change dir eid version_target max_wait max_steps 0)
                 (Z.to_nat (max_steps - 0)))
    by (intros; apply within_staged_change; assumption).
  assert (Hcnt : forall tr, (count_put tr <= 0)%nat ->
                   (count_put log < count_put (app log tr))%nat -> False).
  { intros tr Htr Hlt; unfold count_put in *; rewrite count_app in Hlt; lia. }
  destruct (go ion_serial cli_action max_steps max_wait version_target (w, log))
    as [r [w' log']] eqn:Hgo.
  intros Hlt; unfold go in Hgo.
  destruct (find_ion_by_sn ion_serial (w, log)) as [[eid|e] [w1 l1]] eqn:H1.
  2:{ rewrite (bind_exc _ _ _ _ _ H1) in Hgo; inversion Hgo; subst.
      destruct (F1 _ _ _ _ _ H1) as (tr & -> & C); exfalso; exact (Hcnt tr C Hlt). }
  rewrite (bind_ok _ _ _ _ _ H1) in Hgo.
  destruct (F1 _ _ _ _ _ H1) as (tr1 & -> & C1).
  destruct (is_upgrade_or_downgrade eid version_target (w1, app log tr1))
    as [[act|e] [w2 l2]] eqn:H2.
  2:{ rewrite (bind_exc _ _ _ _ _ H2) in Hgo; inversion Hgo; subst.
      destruct (F2 eid _ _ _ _ _ H2) as (tr & -> & C); exfalso.
      apply (Hcnt (app tr1 tr)); [unfold count_put in *; rewrite count_app; lia|].
      rewrite app_assoc; exact Hlt. }
  rewrite (bind_ok _ _ _ _ _ H2) in Hgo.
  destruct (F2 eid _ _ _ _ _ H2) as (tr2 & -> & C2).
  assert (Hstop : log' = app (app log tr1) tr2 -> False).
  { intros ->; apply (Hcnt (app tr1 tr2)); [unfold count_put in *; rewrite count_app; lia|].
    rewrite app_assoc; exact Hlt. }
  assert (Hrun : forall dir : bool,
             bind (staged_change (if dir then Upgrade else Downgrade) eid version_target
                     max_wait max_steps 0) (fun _ => ret RNone)
               (w2, app (app log tr1) tr2) = (r, (w', log')) -> 0 < max_steps).
  { intros dir Hm; unfold bind in Hm.
    destruct (staged_change (if dir then Upgrade else Downgrade) eid version_target
                max_wait max_steps 0 (w2, app (app log tr1) tr2)) as [[v|e] [w3 l3]] eqn:E;
      inversion Hm; subst;
      destruct (F3 _ _ _ _ _ _ _ E) as (tr3 & -> & C3);
      (destruct (Z.ltb_spec 0 max_steps) as [Hpos|Hnpos]; [exact Hpos|exfalso]);
      (apply (Hcnt (app (app tr1 tr2) tr3));
       [unfold count_put in *; rewrite !count_app;
        replace (Z.to_nat (max_steps - 0)) with O in C3 by lia; lia
       |rewrite !app_assoc; exact Hlt]). }
  destruct act as [act|]; [|inversion Hgo; subst; exfalso; auto].
  destruct (negb (String.eqb cli_action "auto") && negb (String.eqb cli_action act)) eqn:Hcli;
    [inversion Hgo; subst; exfalso; auto|].
  destruct (truthy eid) eqn:Ht; [|inversion Hgo; subst; exfalso; auto].
  assert (Hc : cli_action = "auto" \/ cli_action = act).
  { destruct (String.eqb_spec cli_action "auto"); [auto|].
    destruct (String.eqb_spec cli_action act); [auto|discriminate]. }
  destruct (String.eqb_spec act "upgrade") as [->|Hu].
  - exists eid, (w1, app log tr1), "upgrade", (w2, app (app log tr1) tr2).
    pose proof (Hrun true Hgo); auto 10.
  - destruct (String.eqb_spec act "downgrade") as [->|Hd];
      [|inversion Hgo; subst; exfalso; auto].
    exists eid, (w1, app log tr1), "downgrade", (w2, app (app log tr1) tr2).
    pose proof (Hrun false Hgo); auto 10.
Qed.

Lemma path_scan_some (table : path_table) (cur : string) (cat : catalog) :
  forall acc uv uid,
  path_scan table (Some cur) cat acc = Ok (Some uv, Some uid) ->
  acc = (Some uv, Some uid) \/
  exists path spec im, In (path, spec) table /\ re_match path cur = true /\
    get_exact_major_minor_micro spec cat = Some uv /\ dict_get cat uv = Some im /\
    img_id im = uid.
Proof.
  induction table as [|[path spec] table IH]; intros acc uv uid H; cbn [path_scan] in H.
  - injection H as ->; auto.
  - destruct (re_match path cur) eqn:Hm.
    + destruct (get_exact_major_minor_micro spec cat) as [uv0|] eqn:Hg; [|discriminate].
      destruct (dict_get cat uv0) as [im|] eqn:Hd; [|discriminate].
      destruct (IH _ _ _ H) as [E|(p' & s' & im' & Hin & R)].
      * injection E as -> <-; right; exists path, spec, im; simpl; auto 6.
      * right; exists p', s', im'; simpl; auto.
    + destruct (IH _ _ _ H) as [E|(p' & s' & im' & Hin & R)]; [auto|].
      right; exists p', s', im'; simpl; auto.
Qed.

Lemma path_scan_no_match (table : path_table) (cur : string) (cat : catalog) acc :
  (forall path spec, In (path, spec) table -> re_match path cur = false) ->
  path_scan table (Some cur) cat acc = Ok acc.
Proof.
  revert acc; induction table as [|[path spec] table IH]; intros acc H; [reflexivity|].
  cbn [path_scan]; rewrite (H path spec (or_introl eq_refl)).
  apply IH; intros; apply (H path0 spec0); simpl; auto.
Qed.

(** A hop planned by the engine (lines 201-223) goes to a catalog image of
    the current catalog read: the device's version matches an entry of
    the direction's table, the image's version contains that entry's
    specifier, the image id is that image's id, and the device is not
    already at the run's target. *)
Theorem staged_plan_hop_image (dir : direction) (eid mv : option string)
    (w : W) (log : list event) (mv' uv uid : string) (s1 : W * list event) :
  staged_plan dir eid mv (w, log) = (Ok (PHop mv' uv uid), s1) ->
  exists images w1 cur path spec im,
    sdk_get_element_images w = ((true, Some images), w1) /\
    read_value (fst (sdk_get_element eid w1)) = Some cur /\
    In (path, spec) (path_regex dir) /\ re_match path cur = true /\
    py_in spec uv = true /\ In im images /\ img_version im = uv /\ img_id im = uid /\
    String.eqb cur mv' = false.
Proof.
  intros H; unfold staged_plan in H.
  destruct (sdk_get_element_images w) as [[ok items] w1] eqn:Ei.
  assert (Hbad : forall r0, get_images_list (w, log) = (r0, (w1, app log [EvGetImages ok])) ->
            (r0 = Ok None \/ r0 = Exc TypeError) -> False).
  { intros r0 Hr0 [-> | ->].
    - rewrite (bind_ok _ _ _ _ _ Hr0) in H.
      rewrite (bind_ok _ _ _ _ _ (get_element_sw_version_run _ _ _)) in H.
      discriminate H.
    - rewrite (bind_exc _ _ _ _ _ Hr0) in H; discriminate H. }
  destruct ok; [destruct items as [images|]|];
    [|destruct (get_images_list_run_fail w log w1 _ _ Ei ltac:(auto)) as (r0 & Hr0 & Hc);
      exfalso; exact (Hbad r0 Hr0 Hc)..].
  rewrite (bind_ok _ _ _ _ _ (get_images_list_run_ok _ _ _ _ Ei)) in H.
  rewrite (bind_ok _ _ _ _ _ (get_element_sw_version_run _ _ _)) in H.
  cbv beta iota in H.
  destruct (target_resolution dir mv (image_dict_of images)) as [[m e]|e] eqn:Et;
    [|discriminate H].
  unfold lift at 1 in H; rewrite (bind_ok _ _ _ _ _ eq_refl) in H; cbv beta iota in H.
  destruct (opt_eqb (read_value (fst (sdk_get_element eid w1))) (Some m)
            || opt_eqb (read_value (fst (sdk_get_element eid w1))) e) eqn:Hat;
    [discriminate H|].
  destruct (negb (truthy (scan_exact_version m (dict_keys (image_dict_of images)) None)));
    [discriminate H|].
  destruct (read_value (fst (sdk_get_element eid w1))) as [cur|] eqn:Hc.
  2:{ destruct dir; discriminate H. }
  unfold lift at 1 in H.
  destruct (path_scan (path_regex dir) (Some cur) (image_dict_of images) (None, None))
    as [[uv0 uid0]|e'] eqn:Hs; [|discriminate H].
  rewrite (bind_ok _ _ _ _ _ eq_refl) in H; cbv beta iota in H.
  destruct uv0 as [[|c0 u0]|]; try discriminate H.
  destruct uid0 as [[|c1 u1]|]; try discriminate H.
  injection H as <- <- <- _.
  destruct (path_scan_some _ _ _ _ _ _ Hs) as [E|(path & spec & im & Hin & Hm & Hg & Hd & Hid)];
    [discriminate E|].
  destruct (image_dict_get_in _ _ _ Hd) as [Him Hv].
  destruct (get_exact_keys_some _ _ _ Hg) as (pre & post & _ & Hsp & _).
  exists images, w1, cur, path, spec, im.
  repeat split; auto.
  apply Bool.orb_false_iff in Hat; destruct Hat as [Hat _]; exact Hat.
Qed.

(** The engine (lines 196-223) stops with [False] right after its two
    reads, without a change request, when the device is already at the
    target or at its exact version, when no catalog version contains the
    target, or when no entry of the direction's table matches the device's
    version. *)
Theorem staged_change_early_stop (dir : direction) (eid mv : option string)
    (max_wait max_steps step : Z) (w : W) (log : list event)
    (images : list image) (w1 w2 : W) (ok : bool) (sw : option string)
    (m : string) (e : option string) :
  step + 1 <= max_steps ->
  sdk_get_element_images w = ((true, Some images), w1) ->
  sdk_get_element eid w1 = ((ok, sw), w2) ->
  target_resolution dir mv (image_dict_of images) = Ok (m, e) ->
  (opt_eqb (read_value (ok, sw)) (Some m) = true \/
   opt_eqb (read_value (ok, sw)) e = true \/
   Forall (fun v => py_in m v = false) (map img_version images) \/
   exists cur, read_value (ok, sw) = Some cur /\
     forall path spec, In (path, spec) (path_regex dir) -> re_match path cur = false) ->
  staged_change dir eid mv max_wait max_steps step (w, log) =
  (Ok RFalse, (w2, app log [EvGetImages true; EvGetElement eid ok sw])).
Proof.
  intros Hle Ei Ee Et Hstop.
  assert (Hp : staged_plan dir eid mv (w, log) =
               (Ok PStop, (w2, app log [EvGetImages true; EvGetElement eid ok sw]))).
  { unfold staged_plan.
    rewrite (bind_ok _ _ _ _ _ (get_images_list_run_ok _ _ _ _ Ei)).
    rewrite (bind_ok _ _ _ _ _ (get_element_sw_version_run _ _ _)).
    rewrite Ee; cbn [fst snd]; cbv beta iota.
    rewrite Et; unfold lift at 1; rewrite (bind_ok _ _ _ _ _ eq_refl); cbv beta iota.
    rewrite <- app_assoc; cbn [app].
    destruct (opt_eqb (read_value (ok, sw)) (Some m) || opt_eqb (read_value (ok, sw)) e)
      eqn:Hat; [reflexivity|].
    apply Bool.orb_false_iff in Hat; destruct Hat as [Ha1 Ha2].
    destruct Hstop as [H|[H|[H|(cur & Hc & Hno)]]]; [congruence|congruence| |].
    - assert (Hn : scan_exact_version m (dict_keys (image_dict_of images)) None = None).
      { destruct (scan_exact_version_spec m (dict_keys (image_dict_of images)) None)
          as [[Hs _]|(pre & k & post & Hk & Hin & _ & _)]; [exact Hs|].
        exfalso; rewrite Forall_forall in H.
        assert (Hk' : In k (dict_keys (image_dict_of images)))
          by (rewrite Hk; apply in_or_app; simpl; auto).
        destruct (image_dict_keys_versions _ _ Hk') as (i & Hi & Hv).
        rewrite (H k) in Hin; [discriminate|rewrite <- Hv; apply in_map; exact Hi]. }
      rewrite Hn; reflexivity.
    - destruct (negb (truthy (scan_exact_version m (dict_keys (image_dict_of images)) None)));
        [reflexivity|].
      rewrite Hc; unfold lift at 1.
      rewrite (path_scan_no_match _ _ _ _ Hno).
      rewrite (bind_ok _ _ _ _ _ eq_refl); reflexivity. }
  rewrite (staged_change_step _ _ _ _ _ _ Hle), (bind_ok _ _ _ _ _ Hp); reflexivity.
Qed.

End EngineExtras.

Section AuthResult.
Context {A : Type} {api : AuthAPI A}.

Lemma login_loop_ok (fuel : nat) (sdk sdk' : A) :
  login_loop fuel sdk = AuthOk sdk' -> api_tenant_id sdk' <> None.
Proof.
  revert sdk; induction fuel as [|fuel IH]; intros sdk H; cbn [login_loop] in H;
    [discriminate H|].
  destruct (api_tenant_id sdk) eqn:Ht; [injection H as <-; congruence|exact (IH _ H)].
Qed.

(** [authenticate] (lines 94-130) returns an API object only once it has a
    tenant id: a token without a tenant exits, and the login loop repeats
    until a tenant id is set. *)
Theorem authenticate_ok_has_tenant (fuel : nat) (files : string -> option string)
    (CLIARGS : auth_args) (sdk sdk' : A) :
  authenticate fuel files CLIARGS sdk = AuthOk sdk' -> api_tenant_id sdk' <> None.
Proof.
  unfold authenticate; cbv zeta.
  match goal with
  | |- match ?x with inl _ => _ | inr _ => _ end = _ -> _ => destruct x as [t|e]
  end; [|discriminate].
  destruct t as [[|c t']|]; try apply login_loop_ok.
  destruct (api_tenant_id (api_use_token (String c t') sdk)) eqn:Ht;
    [injection 1 as <-; congruence|discriminate].
Qed.

End AuthResult.

(** ** Examples of the further properties *)

Lemma get_images_list_catalog_witness :
  get_images_list (sim_at "4.5.2", []) =
    (Ok (Some (image_dict_of tenant_images)), (sim_at "4.5.2", [EvGetImages true])) /\
  dict_get (image_dict_of tenant_images) "5.2.7-b22" = Some (img "5.2.7-b22").
Proof.
  destruct (get_images_list_catalog (sdk := sim_sdk) (sim_at "4.5.2") []) as [H1 H2].
  split; [exact H1|].
  destruct (H2 tenant_images) as (_ & _ & H3); rewrite H3; reflexivity.
Defined.

Lemma wait_for_upgade_no_sleep_witness :
  wait_for_upgade "4.5.2" (Some "E1") 240 (sim_at "4.5.2", []) =
  (Ok true, (sim_at "4.5.2", [EvGetElement (Some "E1") true (Some "4.5.2")])).
Proof.
  exact (wait_for_upgade_no_sleep (sdk := sim_sdk) "4.5.2" (Some "E1") 240 (sim_at "4.5.2") []
           (or_intror eq_refl)).
Defined.

Lemma path_regex_match_iff_witness :
  exists a b, "4\.5\..*" = String a (String "\" (String "." (String b "\..*"))) /\
    (re_match "4\.5\..*" "4.5.2" = true <->
     exists r, "4.5.2" = String a (String "." (String b (String "." r)))).
Proof.
  apply (path_regex_match_iff Upgrade "4\.5\..*" "4.7.1" "4.5.2").
  simpl; left; reflexivity.
Defined.

Lemma is_upgrade_or_downgrade_decision_witness :
  is_upgrade_or_downgrade (Some "E1") (Some "5.2.7") (sim_at "4.5.9", []) =
    (Ok (Some "upgrade"),
     run_state (is_upgrade_or_downgrade (Some "E1") (Some "5.2.7")) (sim_at "4.5.9")) /\
  exists c1 c2 t1 t2, c1 < t1 \/ (c1 = t1 /\ c2 < t2).
Proof.
  assert (H : is_upgrade_or_downgrade (Some "E1") (Some "5.2.7") (sim_at "4.5.9", []) =
    (Ok (Some "upgrade"),
     run_state (is_upgrade_or_downgrade (Some "E1") (Some "5.2.7")) (sim_at "4.5.9")))
    by (vm_compute; reflexivity).
  split; [exact H|].
  destruct (is_upgrade_or_downgrade_decision _ _ _ _ _ _ H)
    as (images & w1 & cur & mv & et & c1 & c2 & c3 & t1 & t2 & t3 & _ & _ & _ & _ & _ & Hu & _).
  exists c1, c2, t1, t2; apply Hu; reflexivity.
Defined.

Lemma is_upgrade_or_downgrade_errors_witness :
  fst (is_upgrade_or_downgrade (Some "E1") (Some "9.9.9") (sim_at "4.5.2", [])) = Exc TypeError.
Proof.
  apply (proj1 (proj2 (is_upgrade_or_downgrade_errors (Some "E1") (Some "9.9.9")
                         (sim_at "4.5.2") [])))
    with (images := tenant_images) (w1 := sim_at "4.5.2") (spec := "9.9.9");
    [reflexivity|reflexivity|discriminate|repeat constructor].
Defined.

Lemma go_change_requires_direction_witness :
  exists eid s1 act s2,
    find_ion_by_sn "ION-SN-1" (sim_at "4.5.2", []) = (Ok eid, s1) /\ truthy eid = true /\
    is_upgrade_or_downgrade eid (Some "5.2.7") s1 = (Ok (Some act), s2) /\
    (act = "upgrade" \/ act = "downgrade") /\
    ("auto" = "auto" \/ "auto" = act) /\ 0 < 5.
Proof.
  pose proof (go_change_requires_direction "ION-SN-1" "auto" 5 240 (Some "5.2.7")
                (sim_at "4.5.2") []) as H.
  assert (Hc : (count_put [] < count_put (snd (snd (go "ION-SN-1" "auto" 5 240 (Some "5.2.7")
                                                     (sim_at "4.5.2", [])))))%nat)
    by (apply Nat.ltb_lt; vm_compute; reflexivity).
  revert H Hc; destruct (go "ION-SN-1" "auto" 5 240 (Some "5.2.7") (sim_at "4.5.2", []))
    as [r [w' log']]; intros H Hc; exact (H Hc).
Defined.

Lemma staged_change_early_stop_witness :
  staged_change Upgrade (Some "E1") (Some "5.2.7") 240 5 0 (sim_at "5.2.7-b22", []) =
  (Ok RFalse, (sim_at "5.2.7-b22",
               [EvGetImages true; EvGetElement (Some "E1") true (Some "5.2.7-b22")])).
Proof.
  refine (staged_change_early_stop Upgrade (Some "E1") (Some "5.2.7") 240 5 0
            (sim_at "5.2.7-b22") [] tenant_images (sim_at "5.2.7-b22") (sim_at "5.2.7-b22")
            true (Some "5.2.7-b22") "5.2.7" (Some "5.2.7-b22") _ eq_refl eq_refl _ _).
  - lia.
  - vm_compute; reflexivity.
  - right; left; reflexivity.
Defined.

Lemma staged_plan_hop_image_witness :
  exists path spec, In (path, spec) (path_regex Upgrade) /\ re_match path "4.5.2" = true /\
    py_in spec "4.7.1-b4" = true.
Proof.
  assert (H : staged_plan Upgrade (Some "E1") (Some "5.2.7") (sim_at "4.5.2", []) =
              (Ok (PHop "5.2.7" "4.7.1-b4" "id-4.7.1-b4"),
               run_state (staged_plan Upgrade (Some "E1") (Some "5.2.7")) (sim_at "4.5.2")))
    by (vm_compute; reflexivity).
  destruct (staged_plan_hop_image _ _ _ _ _ _ _ _ _ H)
    as (images & w1 & cur & path & spec & im & Ei & Hc & Hin & Hm & Hs & _).
  cbn in Ei; injection Ei as _ <-.
  cbn in Hc; injection Hc as <-.
  exists path, spec; auto.
Defined.

Lemma authenticate_ok_has_tenant_witness :
  authenticate 3 (fun _ => None) (mk_auth_args (Some "TOKEN") None) (mk_demo_api None) =
    AuthOk (mk_demo_api (Some "T1")) /\ demo_tenant (mk_demo_api (Some "T1")) <> None.
Proof.
  assert (H : authenticate 3 (fun _ => None) (mk_auth_args (Some "TOKEN") None)
                (mk_demo_api None) = AuthOk (mk_demo_api (Some "T1"))) by reflexivity.
  split; [exact H|exact (authenticate_ok_has_tenant _ _ _ _ _ H)].
Defined.
